(** * license-builder: the dependency reporter of [src/licenses.ts]

    A shallow embedding of the [PackageAnalyzer] class and of the parts of
    the JavaScript runtime its methods call, followed by the properties of
    the version comparator, of the analysis loop, of the aggregator and of
    the renderer.

    Conventions.
    - What the program prints on the console is left out; the file it
      writes is returned as a value.
    - A JavaScript string is a [string]: one character per UTF-16 code unit,
      for code units below 256.  The two icons of the renderer lie outside
      that range; they are named constants that are only ever appended to
      the output.
    - A JavaScript number is a [number]: NaN, an infinity, or a rational that
      is a binary64 value.  The sign of zero is not kept: no operation of
      this program observes it ([-0 || 0] is [0], and every divisor is a
      count).
    - Counts (array lengths, histogram cells) are [nat]; they stand for the
      numbers below 2^53, where [n + 1] is exact.
    - The manifest and the answers of the registry have the shapes that
      the interfaces [PackageJson] and [NpmPackageInfo] declare.  The
      program casts the parsed JSON to them unchecked (lines 123 and 208):
      a value of another shape, such as a license given as an object or an
      author object without a name, lies outside this embedding. *)

From Stdlib Require Import ZArith QArith Qround Qabs Qpower List String Ascii.
From Stdlib Require Import Bool Lia.
From Stdlib Require Qcanon.
From Stdlib Require Import Numbers.DecimalString.
From Stdlib Require Import Sorting.Sorted Sorting.Permutation.
Import ListNotations.

Open Scope string_scope.
Open Scope bool_scope.

(** ** The JavaScript runtime *)

Module JS.

(** *** Numbers *)

Inductive number : Type :=
| NaN
| Inf (negative : bool)
| Fin (q : Q).

Definition zero : number := Fin 0.

Definition neg (x : number) : number :=
  match x with
  | NaN => NaN
  | Inf s => Inf (negb s)
  | Fin q => Fin (Qred (- q))
  end.

(** [x < y] (IsLessThan): false as soon as an operand is NaN. *)
Definition lt (x y : number) : bool :=
  match x, y with
  | NaN, _ | _, NaN => false
  | Inf true, Inf true => false
  | Inf true, _ => true
  | _, Inf true => false
  | Inf false, _ => false
  | Fin _, Inf false => true
  | Fin a, Fin b => negb (Qle_bool b a)
  end.

(** [x > y] is [y < x]. *)
Definition gt (x y : number) : bool := lt y x.

(** ToBoolean on a number: NaN and zero are falsy. *)
Definition toBoolean (x : number) : bool :=
  match x with
  | NaN => false
  | Inf _ => true
  | Fin q => negb (Qeq_bool q 0)
  end.

(** [x || 0] on a number. *)
Definition or0 (x : number) : number := if toBoolean x then x else zero.

(** [a[i] || 0]: an index past the end reads [undefined], which is falsy. *)
Definition at_or0 (a : list number) (i : nat) : number :=
  match nth_error a i with
  | Some x => or0 x
  | None => zero
  end.

(** Numeric equality of two numbers that are not NaN. *)
Definition same (x y : number) : Prop :=
  match x, y with
  | Fin a, Fin b => a == b
  | Inf s, Inf t => s = t
  | _, _ => False
  end.

(** Rounding of a real to the Number type: nearest binary64 value, ties to
    the even significand, 2^1024 standing for the infinity. *)

Definition round_half_even (q : Q) : Z :=
  let f := Qfloor q in
  match Qcompare (q - inject_Z f) (1 # 2) with
  | Lt => f
  | Gt => (f + 1)%Z
  | Eq => if Z.even f then f else (f + 1)%Z
  end.

(** floor (log2 q), for [0 < q]. *)
Definition ilog2 (q : Q) : Z :=
  let k := (Z.log2 (Qnum q) - Z.log2 (Zpos (Qden q)))%Z in
  if Qle_bool (2 ^ k) q then k else (k - 1)%Z.

Definition round64_pos (q : Q) : number :=
  let e := ilog2 q in
  let u := Z.max (e - 52) (-1074) in
  let m := round_half_even (q / 2 ^ u) in
  let v := inject_Z m * 2 ^ u in
  if Qle_bool (2 ^ 1024) v then Inf false else Fin (Qred v).

Definition round64 (q : Q) : number :=
  match Qcompare q 0 with
  | Eq => zero
  | Gt => round64_pos q
  | Lt => neg (round64_pos (- q))
  end.

Definition of_nat (n : nat) : number := round64 (inject_Z (Z.of_nat n)).

(** *** Strings *)

(** WhiteSpace and LineTerminator code units (below 256): TAB, LF, VT, FF,
    CR, SP and NBSP. *)
Definition isWhiteSpace (c : ascii) : bool :=
  let n := nat_of_ascii c in
  ((9 <=? n)%nat && (n <=? 13)%nat) || (n =? 32)%nat || (n =? 160)%nat.

Fixpoint trimStart (s : string) : string :=
  match s with
  | "" => ""
  | String c r => if isWhiteSpace c then trimStart r else s
  end.

Fixpoint trimEnd (s : string) : string :=
  match s with
  | "" => ""
  | String c r =>
      match trimEnd r with
      | "" => if isWhiteSpace c then "" else String c ""
      | r' => String c r'
      end
  end.

(** [s.trim()] *)
Definition trim (s : string) : string := trimEnd (trimStart s).

(** [s.split(sep)] for a separator of one code unit. *)
Fixpoint split (sep : ascii) (s : string) : list string :=
  match s with
  | "" => [""]
  | String c r =>
      if Ascii.eqb c sep then "" :: split sep r
      else match split sep r with
           | p :: ps => String c p :: ps
           | [] => [String c ""]
           end
  end.

(** *** Number(s): StringToNumber *)

Definition digit (base : Z) (c : ascii) : option Z :=
  let n := Z.of_N (N_of_ascii c) in
  let v := if (48 <=? n)%Z && (n <=? 57)%Z then (n - 48)%Z
           else if (97 <=? n)%Z && (n <=? 102)%Z then (n - 87)%Z
           else if (65 <=? n)%Z && (n <=? 70)%Z then (n - 55)%Z
           else base in
  if (v <? base)%Z then Some v else None.

(** The longest prefix of digits: its value on top of [acc], the number of
    digits read after [count], and the rest. *)
Fixpoint digits (base acc : Z) (count : nat) (s : string) : Z * nat * string :=
  match s with
  | "" => (acc, count, "")
  | String c r =>
      match digit base c with
      | Some d => digits base (acc * base + d) (S count) r
      | None => (acc, count, s)
      end
  end.

(** SignedInteger: an optional sign, then digits up to the end. *)
Definition signedInteger (s : string) : option Z :=
  let '(sg, r) :=
    match s with
    | String c r => if Ascii.eqb c "+" then (1%Z, r)
                    else if Ascii.eqb c "-" then ((-1)%Z, r)
                    else (1%Z, s)
    | "" => (1%Z, s)
    end in
  match digits 10 0 0 r with
  | (v, S _, "") => Some (sg * v)%Z
  | _ => None
  end.

(** ExponentPart, up to the end of the string; no exponent is exponent 0. *)
Definition exponentPart (s : string) : option Z :=
  match s with
  | "" => Some 0%Z
  | String c r =>
      if Ascii.eqb c "e" || Ascii.eqb c "E" then signedInteger r else None
  end.

(** The real [m * 10^e]. *)
Definition scale10 (m e : Z) : Q :=
  if (0 <=? e)%Z then inject_Z (m * 10 ^ e)
  else inject_Z m / inject_Z (10 ^ (- e)).

(** StrUnsignedDecimalLiteral: [Infinity], or digits with an optional
    fraction and an optional exponent, one digit at least before the
    exponent. *)
Definition unsignedDecimal (s : string) : number :=
  if String.eqb s "Infinity" then Inf false
  else
    let '(i, ni, r) := digits 10 0 0 s in
    let '(m, nf, r') :=
      match r with
      | String c r1 => if Ascii.eqb c "." then digits 10 i 0 r1
                       else (i, 0%nat, r)
      | "" => (i, 0%nat, r)
      end in
    match ni, nf with
    | O, O => NaN
    | _, _ =>
        match exponentPart r' with
        | Some e => round64 (scale10 m (e - Z.of_nat nf))
        | None => NaN
        end
    end.

(** NonDecimalIntegerLiteral, after its prefix. *)
Definition nonDecimal (base : Z) (s : string) : number :=
  match digits base 0 0 s with
  | (v, S _, "") => round64 (inject_Z v)
  | _ => NaN
  end.

(** StrDecimalLiteral *)
Definition strDecimal (s : string) : number :=
  match s with
  | String c r => if Ascii.eqb c "+" then unsignedDecimal r
                  else if Ascii.eqb c "-" then neg (unsignedDecimal r)
                  else unsignedDecimal s
  | "" => unsignedDecimal s
  end.

(** The base a prefix [0x], [0o] or [0b] announces. *)
Definition radixPrefix (s : string) : option (Z * string) :=
  match s with
  | String c0 (String c r) =>
      if Ascii.eqb c0 "0" then
        if Ascii.eqb c "x" || Ascii.eqb c "X" then Some (16%Z, r)
        else if Ascii.eqb c "o" || Ascii.eqb c "O" then Some (8%Z, r)
        else if Ascii.eqb c "b" || Ascii.eqb c "B" then Some (2%Z, r)
        else None
      else None
  | _ => None
  end.

(** [Number(s)] on a string.  A literal of more than 20 significant digits
    may be rounded by an implementation from its first 20 digits; the
    correctly rounded value, which V8 computes, is taken here. *)
Definition Number (s : string) : number :=
  let t := trim s in
  if String.eqb t "" then zero
  else match radixPrefix t with
       | Some (base, r) => nonDecimal base r
       | None => strDecimal t
       end.

(** *** Arithmetic *)

Definition isNegative (x : number) : bool :=
  match x with
  | NaN => false
  | Inf s => s
  | Fin q => negb (Qle_bool 0 q)
  end.

(** [x / y]; a zero divisor is [+0]. *)
Definition div (x y : number) : number :=
  match x, y with
  | NaN, _ | _, NaN => NaN
  | Inf _, Inf _ => NaN
  | Inf s, Fin b => Inf (xorb s (isNegative y))
  | Fin _, Inf _ => zero
  | Fin a, Fin b =>
      if Qeq_bool b 0 then
        if Qeq_bool a 0 then NaN else Inf (isNegative x)
      else round64 (a / b)
  end.

(** [x * y] *)
Definition mul (x y : number) : number :=
  match x, y with
  | NaN, _ | _, NaN => NaN
  | Inf s, Inf t => Inf (xorb s t)
  | Inf s, Fin b => if Qeq_bool b 0 then NaN else Inf (xorb s (isNegative y))
  | Fin a, Inf t => if Qeq_bool a 0 then NaN else Inf (xorb (isNegative x) t)
  | Fin a, Fin b => round64 (a * b)
  end.

(** The sign of [x - y] as a sort comparator's result is read: a NaN
    counts as [+0].  A difference of two binary64 values rounds to zero only
    when they are equal. *)
Definition signOfDifference (x y : number) : comparison :=
  match x, y with
  | NaN, _ | _, NaN => Eq
  | Inf s, Inf t => if Bool.eqb s t then Eq else if s then Lt else Gt
  | Inf s, Fin _ => if s then Lt else Gt
  | Fin _, Inf t => if t then Gt else Lt
  | Fin a, Fin b => Qcompare a b
  end.

(** *** Printing *)

(** The decimal digits of a natural number. *)
Definition decimal (n : N) : string :=
  NilEmpty.string_of_uint (N.to_uint n).

Section ToFixed.

(** Number::toString, which [toFixed] falls back to from 10^21 on. *)
Variable numberToString : Q -> string.

(** [x.toFixed(1)] *)
Definition toFixed1 (x : number) : string :=
  match x with
  | NaN => "NaN"
  | Inf false => "Infinity"
  | Inf true => "-Infinity"
  | Fin q =>
      if Qle_bool (inject_Z (10 ^ 21)) (Qabs q) then numberToString q
      else
        let n := Qfloor (Qabs q * 10 + (1 # 2)) in
        let m := decimal (Z.to_N n) in
        let m := if (String.length m <=? 1)%nat then "0" ++ m else m in
        let k := String.length m in
        (if isNegative x then "-" else "")
        ++ substring 0 (k - 1) m ++ "." ++ substring (k - 1) 1 m
  end.

End ToFixed.

(** *** Arrays *)

Section Sort.

Context {A : Type}.

(** The comparator's verdict on [(a, b)]: [Lt] when its result is negative,
    [Gt] when positive, [Eq] when zero or NaN. *)
Variable comparefn : A -> A -> comparison.

Fixpoint insert (x : A) (l : list A) : list A :=
  match l with
  | [] => [x]
  | y :: l' =>
      match comparefn y x with
      | Lt => y :: insert x l'
      | _ => x :: l
      end
  end.

(** [a.sort(comparefn)]: the sort is stable, so for a consistent comparator
    its result is the one of an insertion sort that moves an element only
    past those that must come before it.  (With an inconsistent comparator
    the order depends on the implementation.) *)
Fixpoint sort (l : list A) : list A :=
  match l with
  | [] => []
  | x :: l' => insert x (sort l')
  end.

End Sort.

(** *** Objects made by [{}] and used as tables *)

(** What a cell of such a table can hold here: a number or a string. *)
Inductive value : Type :=
| VNum (n : nat)
| VStr (s : string).

(** Own properties, in the order of their creation. *)
Definition object : Type := list (string * value).

(** The properties every object inherits from [Object.prototype], each with
    the string its value converts to (ToPrimitive, as V8 prints built-in
    functions); [__proto__] reads as [Object.prototype] itself. *)
Definition nativeFunction (name : string) : string :=
  "function " ++ name ++ "() { [native code] }".

Definition objectPrototype : list (string * string) :=
  ("__proto__", "[object Object]")
  :: ("constructor", nativeFunction "Object")
  :: map (fun name => (name, nativeFunction name))
       ["toString"; "toLocaleString"; "valueOf"; "hasOwnProperty";
        "isPrototypeOf"; "propertyIsEnumerable"; "__defineGetter__";
        "__defineSetter__"; "__lookupGetter__"; "__lookupSetter__"].

Fixpoint assoc {B : Type} (k : string) (l : list (string * B)) : option B :=
  match l with
  | [] => None
  | (k', v) :: l' => if String.eqb k' k then Some v else assoc k l'
  end.

Inductive property : Type :=
| Undefined
| Own (v : value)
| Inherited (text : string).

(** [o[k]] *)
Definition get (o : object) (k : string) : property :=
  match assoc k o with
  | Some v => Own v
  | None =>
      match assoc k objectPrototype with
      | Some text => Inherited text
      | None => Undefined
      end
  end.

Fixpoint update (k : string) (v : value) (o : object) : object :=
  match o with
  | [] => []
  | (k', v') :: o' =>
      if String.eqb k' k then (k', v) :: o' else (k', v') :: update k v o'
  end.

(** [o[k] = v] for a number or a string [v]: the setter of [__proto__]
    ignores such a value; any other key is created or overwritten as an own
    property. *)
Definition set (o : object) (k : string) (v : value) : object :=
  if String.eqb k "__proto__" then o
  else match assoc k o with
       | Some _ => update k v o
       | None => (o ++ [(k, v)])%list
       end.

(** [(o[k] || 0) + 1] *)
Definition orZeroPlusOne (p : property) : value :=
  match p with
  | Undefined => VNum 1
  | Own (VNum n) => VNum (n + 1)
  | Own (VStr "") => VNum 1
  | Own (VStr s) => VStr (s ++ "1")
  | Inherited text => VStr (text ++ "1")
  end.

(** [o[k] = (o[k] || 0) + 1] *)
Definition increment (o : object) (k : string) : object :=
  set o k (orZeroPlusOne (get o k)).

(** An array index: the canonical decimal form of an integer below
    2^32 - 1. *)
Definition arrayIndex (k : string) : option Z :=
  match k with
  | "" => None
  | String c r =>
      match digits 10 0 0 k with
      | (v, _, "") =>
          if (Ascii.eqb c "0" && negb (String.eqb r "")) then None
          else if (v <? 2 ^ 32 - 1)%Z then Some v else None
      | _ => None
      end
  end.

Definition isArrayIndex (k : string) : bool :=
  match arrayIndex k with Some _ => true | None => false end.

Definition compareIndex (a b : string * value) : comparison :=
  match arrayIndex (fst a), arrayIndex (fst b) with
  | Some i, Some j => Z.compare i j
  | _, _ => Eq
  end.

(** [Object.entries(o)]: the array indices in ascending order, then the
    other keys in the order of their creation. *)
Definition entries (o : object) : list (string * value) :=
  (sort compareIndex (filter (fun e => isArrayIndex (fst e)) o)
   ++ filter (fun e => negb (isArrayIndex (fst e))) o)%list.

(** ToNumber of a cell. *)
Definition toNumber (v : value) : number :=
  match v with
  | VNum n => of_nat n
  | VStr s => Number s
  end.

(** [`${v}`] *)
Definition toString (v : value) : string :=
  match v with
  | VNum n => decimal (N.of_nat n)
  | VStr s => s
  end.

(** The comparator [([, a], [, b]) => b - a]. *)
Definition byCountDescending (x y : string * value) : comparison :=
  signOfDifference (toNumber (snd y)) (toNumber (snd x)).

End JS.

(** The line feed, [\n] in the source. *)
Definition nl : string := String (ascii_of_nat 10) "".

(** ** The version comparator *)

(** What a [try] block hands to its [catch]. *)
Inductive completion (A : Type) : Type :=
| Normal (a : A)
| Throw (e : string).
Arguments Normal {A} a.
Arguments Throw {A} e.

(** The character class [[\^~>=<]]. *)
Definition isRangeOperator (c : ascii) : bool :=
  Ascii.eqb c "^" || Ascii.eqb c "~" || Ascii.eqb c ">" || Ascii.eqb c "="
  || Ascii.eqb c "<".

(** [version.replace(/^[\^~>=<]/, '')]: the pattern is anchored and not
    global, so at most the first character goes. *)
Definition stripRangeOperator (version : string) : string :=
  match version with
  | String c r => if isRangeOperator c then r else version
  | "" => ""
  end.

Definition _cleanVersion (version : string) : string :=
  JS.trim (stripRangeOperator version).

(** [s.split('.').map(Number)] *)
Definition versionParts (s : string) : list JS.number :=
  map JS.Number (JS.split "." s).

(** The [for] loop of [_isVersionOutdated], entered at index [i] with [n]
    iterations left ([n] is [Math.max(...) - i]); leaving the loop returns
    [false]. *)
Fixpoint compareFrom (installedParts latestParts : list JS.number)
    (i n : nat) : bool :=
  match n with
  | O => false
  | S n' =>
      let installedPart := JS.at_or0 installedParts i in
      let latestPart := JS.at_or0 latestParts i in
      if JS.lt installedPart latestPart then true
      else if JS.gt installedPart latestPart then false
      else compareFrom installedParts latestParts (S i) n'
  end.

(** The body of the [try] block. *)
Definition _isVersionOutdated_try (installed latest : string)
    : completion bool :=
  let installedParts := versionParts installed in
  let latestParts := versionParts latest in
  Normal (compareFrom installedParts latestParts 0
            (Nat.max (List.length installedParts) (List.length latestParts))).

Definition _isVersionOutdated (installed latest : string) : bool :=
  match _isVersionOutdated_try installed latest with
  | Normal b => b
  | Throw _ => false
  end.

Module Comparator.

(** The comparator as [_analyzePackage] calls it (lines 175-176): the
    installed range is cleaned, the latest version is not. *)
Definition isOutdated (installedVersion latestVersion : string) : bool :=
  let cleanInstalled := _cleanVersion installedVersion in
  _isVersionOutdated cleanInstalled latestVersion.

(** Component [i] of a version string as the loop reads it. *)
Definition component (s : string) (i : nat) : JS.number :=
  JS.at_or0 (versionParts s) i.

End Comparator.

(** ** The data model *)

Inductive DependencyType : Type :=
| dependency
| devDependency
| peerDependency.

(** [`${type}`] *)
Definition dependencyTypeName (t : DependencyType) : string :=
  match t with
  | dependency => "dependency"
  | devDependency => "devDependency"
  | peerDependency => "peerDependency"
  end.

(** A parsed manifest; each table is the list of its entries in the order
    [Object.entries] yields them. *)
Record PackageJson : Type := {
  dependencies : option (list (string * string));
  devDependencies : option (list (string * string));
  peerDependencies : option (list (string * string))
}.

Record Repository : Type := {
  repo_type : string;
  repo_url : string
}.

Inductive Author : Type :=
| AuthorString (s : string)
| AuthorObject (name : string) (email : option string).

Record Time : Type := {
  time_created : string;
  time_modified : string
}.

(** The registry's answer, with the fields the analyzer reads. *)
Record NpmPackageInfo : Type := {
  info_name : string;
  info_version : string;
  info_description : option string;
  info_homepage : option string;
  info_repository : option Repository;
  info_license : option string;
  info_author : option Author;
  info_keywords : option (list string);
  info_maintainers : option (list (string * string));
  info_time : option Time
}.

Record PackageAnalysis : Type := {
  name : string;
  installedVersion : string;
  latestVersion : string;
  description : string;
  license : string;
  author : string;
  homepage : string;
  repository : string;
  keywords : list string;
  maintainers : nat;
  created : string;
  lastModified : string;
  isOutdated : bool;
  dependencyType : DependencyType
}.

(** An array of packages lives in the store and is known by its address:
    the analyzer and the reports it returns share it. *)
Definition address : Type := nat.
Definition store : Type := list (list PackageAnalysis).

Definition read (h : store) (a : address) : list PackageAnalysis :=
  nth a h [].

Fixpoint write (h : store) (a : address) (v : list PackageAnalysis) : store :=
  match h, a with
  | [], _ => []
  | _ :: h', O => v :: h'
  | x :: h', S a' => x :: write h' a' v
  end.

(** [[]]: a fresh array. *)
Definition alloc (h : store) : store * address :=
  ((h ++ [[]])%list, List.length h).

Record AnalysisReport : Type := {
  totalPackages : nat;
  outdatedPackages : nat;
  packagesWithSecurityIssues : nat;
  licenseDistribution : JS.object;
  topMaintainers : list (string * JS.value);
  packages : address
}.

Record Dep : Type := {
  dep_name : string;
  dep_version : string;
  dep_type : DependencyType
}.

(** The analyzer's fields, the store, and the pauses taken so far (the
    arguments of [_sleep], latest first). *)
Record Analyzer : Type := {
  heap : store;
  _packages : address;
  _requestCount : nat;
  slept : list N
}.

Definition _npmRegistryUrl : string := "https://registry.npmjs.org".
Definition _maxRequestsPerMinute : nat := 50.

(** [new PackageAnalyzer()] *)
Definition newAnalyzer (h : store) : Analyzer :=
  let '(h', a) := alloc h in
  {| heap := h'; _packages := a; _requestCount := 0; slept := [] |}.

(** [x || d] on an optional string. *)
Definition orString (x : option string) (d : string) : string :=
  match x with
  | Some (String c r) => String c r
  | _ => d
  end.

(** ** The analyzer *)

(** What [fetch] comes back with. *)
Inductive Response : Type :=
| NetworkError (e : string)
| NotOk (status statusText : string)
| Ok (data : NpmPackageInfo).

Definition _extractDependencies (packageJson : PackageJson) : list Dep :=
  let group (t : DependencyType) (table : option (list (string * string))) :=
    match table with
    | Some es => map (fun e => {| dep_name := fst e; dep_version := snd e;
                                  dep_type := t |}) es
    | None => []
    end in
  (group dependency (dependencies packageJson)
   ++ group devDependency (devDependencies packageJson)
   ++ group peerDependency (peerDependencies packageJson))%list.

Definition _formatAuthor (a : option Author) : string :=
  match a with
  | None => "unknown"
  | Some (AuthorString "") => "unknown"
  | Some (AuthorString s) => s
  | Some (AuthorObject n _) => n
  end.

Definition _formatRepository (repo : option Repository) : string :=
  match repo with
  | None => ""
  | Some r => repo_url r
  end.

(** The entry pushed from the [catch] of the analysis loop. *)
Definition failedEntry (dep : Dep) : PackageAnalysis :=
  {| name := dep_name dep;
     installedVersion := dep_version dep;
     latestVersion := "unknown";
     description := "Failed to fetch information";
     license := "unknown";
     author := "unknown";
     homepage := "";
     repository := "";
     keywords := [];
     maintainers := 0;
     created := "";
     lastModified := "";
     isOutdated := false;
     dependencyType := dep_type dep |}.

(** [this._packages.push(p)] *)
Definition push (p : PackageAnalysis) (st : Analyzer) : Analyzer :=
  {| heap := write (heap st) (_packages st)
               (read (heap st) (_packages st) ++ [p])%list;
     _packages := _packages st;
     _requestCount := _requestCount st;
     slept := slept st |}.

Definition _sleep (ms : N) (st : Analyzer) : Analyzer :=
  {| heap := heap st; _packages := _packages st;
     _requestCount := _requestCount st; slept := ms :: slept st |}.

Section PackageAnalyzer.

(** The world around the analyzer: the file system with [JSON.parse] on
    top, the registry (asked by request number and URL), the collation of
    [localeCompare], the clock, and Number::toString for [toFixed]. *)
Variable readJson : string -> completion PackageJson.
Variable fetch : nat -> string -> Response.
Variable localeCompare : string -> string -> comparison.
Variable now : string.
Variable numberToString : Q -> string.

Definition _readPackageJson (filePath : string) : completion PackageJson :=
  match readJson filePath with
  | Normal j => Normal j
  | Throw e => Throw ("Failed to read package.json: " ++ e)
  end.

Definition _fetchPackageInfo (request : nat) (packageName : string)
    : completion NpmPackageInfo :=
  let url := _npmRegistryUrl ++ "/" ++ packageName ++ "/latest" in
  let failed e :=
    Throw ("Failed to fetch package info for " ++ packageName ++ ": " ++ e) in
  match fetch request url with
  | NetworkError e => failed e
  | NotOk status statusText =>
      failed ("Error: HTTP " ++ status ++ ": " ++ statusText)
  | Ok data => Normal data
  end.

(** The record [_analyzePackage] builds from the registry's answer. *)
Definition analysisOf (dep : Dep) (packageInfo : NpmPackageInfo)
    : PackageAnalysis :=
  let latestVersion := info_version packageInfo in
  let cleanInstalled := _cleanVersion (dep_version dep) in
  let outdated := _isVersionOutdated cleanInstalled latestVersion in
  {| name := dep_name dep;
     installedVersion := dep_version dep;
     latestVersion := latestVersion;
     description := orString (info_description packageInfo) "";
     license := orString (info_license packageInfo) "unknown";
     author := _formatAuthor (info_author packageInfo);
     homepage := orString (info_homepage packageInfo) "";
     repository := _formatRepository (info_repository packageInfo);
     keywords := match info_keywords packageInfo with
                 | Some ks => ks
                 | None => []
                 end;
     maintainers := match info_maintainers packageInfo with
                    | Some ms => List.length ms
                    | None => 0
                    end;
     created := match info_time packageInfo with
                | Some t => time_created t
                | None => ""
                end;
     lastModified := match info_time packageInfo with
                     | Some t => time_modified t
                     | None => ""
                     end;
     isOutdated := outdated;
     dependencyType := dep_type dep |}.

(** [_analyzePackage]: the request counter goes up before the fetch, so it
    counts failed requests too. *)
Definition _analyzePackage (dep : Dep) (st : Analyzer)
    : Analyzer * completion PackageAnalysis :=
  let st := {| heap := heap st; _packages := _packages st;
               _requestCount := S (_requestCount st); slept := slept st |} in
  match _fetchPackageInfo (_requestCount st) (dep_name dep) with
  | Throw e => (st, Throw e)
  | Normal packageInfo => (st, Normal (analysisOf dep packageInfo))
  end.

(** One turn of the [for ... of] loop of [analyzePackageJson]. *)
Definition analyzeDep (st : Analyzer) (dep : Dep) : Analyzer :=
  match _analyzePackage dep st with
  | (st, Normal analysis) =>
      let st := push analysis st in
      let st := if (_requestCount st mod _maxRequestsPerMinute =? 0)%nat
                then _sleep 60000%N st else st in
      _sleep 100%N st
  | (st, Throw _) => push (failedEntry dep) st
  end.

(** The license histogram of [_generateReport]. *)
Definition countLicense (o : JS.object) (pkg : PackageAnalysis) : JS.object :=
  let license := orString (Some (license pkg)) "unknown" in
  JS.increment o license.

(** The author table of [_generateReport]. *)
Definition countAuthor (o : JS.object) (pkg : PackageAnalysis) : JS.object :=
  if negb (String.eqb (author pkg) "")
     && negb (String.eqb (author pkg) "unknown")
  then JS.increment o (author pkg)
  else o.

Definition _generateReport (st : Analyzer) : AnalysisReport :=
  let pkgs := read (heap st) (_packages st) in
  let totalPackages := List.length pkgs in
  let outdatedPackages := List.length (filter isOutdated pkgs) in
  let licenseDistribution := fold_left countLicense pkgs [] in
  let maintainerCount := fold_left countAuthor pkgs [] in
  let topMaintainers :=
    firstn 10 (JS.sort JS.byCountDescending (JS.entries maintainerCount)) in
  {| totalPackages := totalPackages;
     outdatedPackages := outdatedPackages;
     packagesWithSecurityIssues := 0;
     licenseDistribution := licenseDistribution;
     topMaintainers := topMaintainers;
     packages := _packages st |}.

(** [analyzePackageJson]: a manifest that cannot be read ends the call; a
    fresh array is collected otherwise. *)
Definition analyzePackageJson (packageJsonPath : string) (st : Analyzer)
    : Analyzer * completion AnalysisReport :=
  match _readPackageJson packageJsonPath with
  | Throw e => (st, Throw e)
  | Normal packageJson =>
      let allDeps := _extractDependencies packageJson in
      let '(h, a) := alloc (heap st) in
      let st := {| heap := h; _packages := a;
                   _requestCount := _requestCount st; slept := slept st |} in
      let st := fold_left analyzeDep allDeps st in
      (st, Normal (_generateReport st))
  end.

(** ** The renderer *)

Definition warningIcon : string := "⚠️".
Definition checkIcon : string := "✅".

(** [((count / total) * 100).toFixed(1)] *)
Definition percentage (count total : JS.number) : string :=
  JS.toFixed1 numberToString
    (JS.mul (JS.div count total) (JS.of_nat 100)).

Definition summaryLines (report : AnalysisReport) : string :=
  "## Summary" ++ nl ++ nl
  ++ "- **Total Packages**: " ++ JS.decimal (N.of_nat (totalPackages report))
  ++ nl
  ++ "- **Outdated Packages**: "
  ++ JS.decimal (N.of_nat (outdatedPackages report)) ++ " ("
  ++ percentage (JS.of_nat (outdatedPackages report))
       (JS.of_nat (totalPackages report))
  ++ "%)" ++ nl ++ nl.

Definition licenseLine (report : AnalysisReport) (e : string * JS.value)
    : string :=
  let '(license, count) := e in
  "- **" ++ license ++ "**: " ++ JS.toString count ++ " packages ("
  ++ percentage (JS.toNumber count) (JS.of_nat (totalPackages report))
  ++ "%)" ++ nl.

Definition licenseLines (report : AnalysisReport) : string :=
  "## License Distribution" ++ nl ++ nl
  ++ String.concat ""
       (map (licenseLine report)
          (JS.sort JS.byCountDescending
             (JS.entries (licenseDistribution report)))).

Definition maintainerLine (maintainer : string * JS.value) : string :=
  "- **" ++ fst maintainer ++ "**: " ++ JS.toString (snd maintainer)
  ++ " packages" ++ nl.

Definition maintainerLines (report : AnalysisReport) : string :=
  match topMaintainers report with
  | [] => ""
  | ms => nl ++ "## Top Package Authors" ++ nl ++ nl
          ++ String.concat "" (map maintainerLine ms)
  end.

Definition outdatedRow (pkg : PackageAnalysis) : string :=
  "| " ++ name pkg ++ " | " ++ installedVersion pkg ++ " | "
  ++ latestVersion pkg ++ " | " ++ dependencyTypeName (dependencyType pkg)
  ++ " |" ++ nl.

Definition outdatedTable (outdatedPkgs : list PackageAnalysis) : string :=
  match outdatedPkgs with
  | [] => ""
  | _ => nl ++ "## Outdated Packages" ++ nl ++ nl
         ++ "| Package | Installed | Latest | Type |" ++ nl
         ++ "|---------|-----------|--------|----- |" ++ nl
         ++ String.concat "" (map outdatedRow outdatedPkgs)
  end.

Definition packageRow (pkg : PackageAnalysis) : string :=
  let outdatedIcon := if isOutdated pkg then warningIcon else checkIcon in
  let author := if (20 <? String.length (author pkg))%nat
                then substring 0 20 (author pkg) ++ "..."
                else author pkg in
  "| " ++ name pkg ++ " | " ++ installedVersion pkg ++ " | "
  ++ latestVersion pkg ++ " | " ++ license pkg ++ " | " ++ author ++ " | "
  ++ outdatedIcon ++ " |" ++ nl.

Definition packagesTable (sorted : list PackageAnalysis) : string :=
  nl ++ "## All Packages" ++ nl ++ nl
  ++ "| Package | Version | Latest | License | Author | Outdated |" ++ nl
  ++ "|---------|---------|--------|---------|---------|---------|" ++ nl
  ++ String.concat "" (map packageRow sorted).

(** The comparator [(a, b) => a.name.localeCompare(b.name)]. *)
Definition byName (a b : PackageAnalysis) : comparison :=
  localeCompare (name a) (name b).

(** [generateReportFile]: the store after the call (the array of the report
    has been sorted in place) and the file handed to [writeFileSync], as
    its path and content. *)
Definition generateReportFile (report : AnalysisReport) (outputPath : string)
    (h : store) : store * (string * string) :=
  let reportContent :=
    "# Package Dependency Analysis Report" ++ nl ++ nl
    ++ "Generated on: " ++ now ++ nl ++ nl in
  let reportContent := reportContent ++ summaryLines report in
  let reportContent := reportContent ++ licenseLines report in
  let reportContent := reportContent ++ maintainerLines report in
  let outdatedPkgs := filter isOutdated (read h (packages report)) in
  let reportContent := reportContent ++ outdatedTable outdatedPkgs in
  let sorted := JS.sort byName (read h (packages report)) in
  let h := write h (packages report) sorted in
  let reportContent := reportContent ++ packagesTable sorted in
  (h, (outputPath, reportContent)).

End PackageAnalyzer.

(** ** The command line *)


Section Main.

Variable readJson : string -> completion PackageJson.
Variable fetch : nat -> string -> Response.
Variable localeCompare : string -> string -> comparison.
Variable now : string.
Variable numberToString : Q -> string.

(** [fs.writeFileSync], which may throw. *)
Variable writeFileSync : string -> string -> completion unit.



End Main.


(** ** The run recorded in [dependency-analysis-report.md] *)

Module Recorded.

Definition info (version license : string) (a : option Author)
    : NpmPackageInfo :=
  {| info_name := ""; info_version := version; info_description := None;
     info_homepage := None; info_repository := None;
     info_license := Some license; info_author := a; info_keywords := None;
     info_maintainers := None; info_time := None |}.

Definition manifest : PackageJson :=
  {| dependencies := None;
     devDependencies :=
       Some [("@types/node", "^20.0.0"); ("ts-node", "^10.9.2");
             ("tsx", "^4.0.0"); ("typescript", "^5.0.0")];
     peerDependencies := None |}.

Definition registry (request : nat) (url : string) : Response :=
  if String.eqb url "https://registry.npmjs.org/@types/node/latest"
  then Ok (info "24.3.0" "MIT" None)
  else if String.eqb url "https://registry.npmjs.org/ts-node/latest"
  then Ok (info "10.9.2" "MIT" (Some (AuthorObject "Blake Embrey" None)))
  else if String.eqb url "https://registry.npmjs.org/tsx/latest"
  then Ok (info "4.20.5" "MIT" (Some (AuthorString "Hiroki Osame")))
  else if String.eqb url "https://registry.npmjs.org/typescript/latest"
  then Ok (info "5.9.2" "Apache-2.0" (Some (AuthorString "Microsoft Corp.")))
  else NotOk "404" "Not Found".

(** Code units in the order of their values. *)
Definition ordinal (a b : string) : comparison := String.compare a b.

(** The manifest of the earlier of the two recorded runs. *)
Definition earlierManifest : PackageJson :=
  {| dependencies := None;
     devDependencies :=
       Some [("@types/node", "^20.0.0"); ("tsx", "^4.0.0");
             ("typescript", "^5.0.0")];
     peerDependencies := None |}.

Definition run (m : PackageJson) : Analyzer * completion AnalysisReport :=
  analyzePackageJson (fun _ => Normal m) registry "./package.json"
    (newAnalyzer []).

(** The file a run writes, with the clock at [now]. *)
Definition rendered (m : PackageJson) (now : string) : string :=
  match run m with
  | (st, Normal report) =>
      snd (snd (generateReportFile ordinal now (fun _ => "") report
                  "./dependency-analysis-report.md" (heap st)))
  | _ => ""
  end.

Definition expected : string :=
"# Package Dependency Analysis Report

Generated on: 2025-08-27T22:11:47.035Z

## Summary

- **Total Packages**: 4
- **Outdated Packages**: 3 (75.0%)

## License Distribution

- **MIT**: 3 packages (75.0%)
- **Apache-2.0**: 1 packages (25.0%)

## Top Package Authors

- **Blake Embrey**: 1 packages
- **Hiroki Osame**: 1 packages
- **Microsoft Corp.**: 1 packages

## Outdated Packages

| Package | Installed | Latest | Type |
|---------|-----------|--------|----- |
| @types/node | ^20.0.0 | 24.3.0 | devDependency |
| tsx | ^4.0.0 | 4.20.5 | devDependency |
| typescript | ^5.0.0 | 5.9.2 | devDependency |

## All Packages

| Package | Version | Latest | License | Author | Outdated |
|---------|---------|--------|---------|---------|---------|
| @types/node | ^20.0.0 | 24.3.0 | MIT | unknown | ⚠️ |
| ts-node | ^10.9.2 | 10.9.2 | MIT | Blake Embrey | ✅ |
| tsx | ^4.0.0 | 4.20.5 | MIT | Hiroki Osame | ⚠️ |
| typescript | ^5.0.0 | 5.9.2 | Apache-2.0 | Microsoft Corp. | ⚠️ |
".

Definition earlierExpected : string :=
"# Package Dependency Analysis Report

Generated on: 2025-08-27T15:31:50.231Z

## Summary

- **Total Packages**: 3
- **Outdated Packages**: 3 (100.0%)

## License Distribution

- **MIT**: 2 packages (66.7%)
- **Apache-2.0**: 1 packages (33.3%)

## Top Package Authors

- **Hiroki Osame**: 1 packages
- **Microsoft Corp.**: 1 packages

## Outdated Packages

| Package | Installed | Latest | Type |
|---------|-----------|--------|----- |
| @types/node | ^20.0.0 | 24.3.0 | devDependency |
| tsx | ^4.0.0 | 4.20.5 | devDependency |
| typescript | ^5.0.0 | 5.9.2 | devDependency |

## All Packages

| Package | Version | Latest | License | Author | Outdated |
|---------|---------|--------|---------|---------|---------|
| @types/node | ^20.0.0 | 24.3.0 | MIT | unknown | ⚠️ |
| tsx | ^4.0.0 | 4.20.5 | MIT | Hiroki Osame | ⚠️ |
| typescript | ^5.0.0 | 5.9.2 | Apache-2.0 | Microsoft Corp. | ⚠️ |
".

End Recorded.

(** ** Small runs *)

Module Runs.

Definition table (es : list (string * string)) : PackageJson :=
  {| dependencies := Some es; devDependencies := None;
     peerDependencies := None |}.

Definition answer (version license : string) (by_ : string) : Response :=
  Ok (Recorded.info version license (Some (AuthorString by_))).

Definition url (packageName : string) : string :=
  "https://registry.npmjs.org/" ++ packageName ++ "/latest".

Definition run (manifest : PackageJson) (registry : nat -> string -> Response)
    : Analyzer * completion AnalysisReport :=
  analyzePackageJson (fun _ => Normal manifest) registry "./package.json"
    (newAnalyzer []).

(** The registry does not know the second of three packages. *)
Definition missingManifest : PackageJson :=
  table [("left-pad", "^1.1.0"); ("no-such-package", "1.0.0");
         ("tsx", "^4.0.0")].

Definition missingRegistry (request : nat) (u : string) : Response :=
  if String.eqb u (url "left-pad") then answer "1.3.0" "WTFPL" "azer"
  else if String.eqb u (url "tsx") then answer "4.20.5" "MIT" "Hiroki Osame"
  else NotOk "404" "Not Found".

(** A package whose license field reads [__proto__]. *)
Definition protoManifest : PackageJson := table [("odd", "1.0.0")].

Definition protoRegistry (request : nat) (u : string) : Response :=
  answer "1.0.0" "__proto__" "Zoe".

(** Two authors with one package each, the second one named [42]. *)
Definition tieManifest : PackageJson :=
  table [("first", "1.0.0"); ("second", "1.0.0")].

Definition tieRegistry (request : nat) (u : string) : Response :=
  if String.eqb u (url "first") then answer "1.0.0" "MIT" "Zoe"
  else answer "1.0.0" "MIT" "42".

(** No dependency at all. *)
Definition emptyManifest : PackageJson :=
  {| dependencies := None; devDependencies := None;
     peerDependencies := None |}.

(** Two packages out of name order, the first one outdated. *)
Definition unsortedManifest : PackageJson :=
  table [("zod", "^3.0.0"); ("axios", "^1.0.0")].

Definition unsortedRegistry (request : nat) (u : string) : Response :=
  if String.eqb u (url "zod") then answer "4.1.0" "MIT" "Colin McDonnell"
  else answer "1.0.0" "MIT" "Matt Zabriskie".

Definition tieState : Analyzer := fst (run tieManifest tieRegistry).
Definition emptyState : Analyzer := fst (run emptyManifest tieRegistry).
Definition unsortedState : Analyzer :=
  fst (run unsortedManifest unsortedRegistry).

End Runs.

(** ** Vocabulary of the statements *)

(** No position from [i] up to [k] (excluded) tells the two arrays apart:
    if they differ at [k], that is their first difference from [i] on. *)
Definition firstDifference (installedParts latestParts : list JS.number)
    (i k : nat) : Prop :=
  (i <= k)%nat /\
  forall j, (i <= j < k)%nat ->
            JS.same (JS.at_or0 installedParts j) (JS.at_or0 latestParts j).

(** The first character of [s] is one of [^ ~ > = <]. *)
Definition startsWithOperator (s : string) : bool :=
  match s with
  | String c _ => isRangeOperator c
  | "" => false
  end.

(** [p'] is [p], or is "0" where [p] is not numeric. *)
Definition nanAsZero (p p' : string) : Prop :=
  (JS.Number p = JS.NaN /\ p' = "0") \/ p' = p.

(** [s'] is [s] with some of its components that are not numeric replaced
    by "0". *)
Definition zeroed (s s' : string) : Prop :=
  Forall2 nanAsZero (JS.split "." s) (JS.split "." s').

(** The characters 0 to 9. *)
Definition isDecimalDigit (c : ascii) : bool :=
  (48 <=? nat_of_ascii c)%nat && (nat_of_ascii c <=? 57)%nat.

(** Every character of [s] is a decimal digit. *)
Fixpoint allDecimalDigits (s : string) : bool :=
  match s with
  | "" => true
  | String c r => isDecimalDigit c && allDecimalDigits r
  end.

(** The integer a string of decimal digits denotes. *)
Fixpoint decimalValueFrom (acc : Z) (s : string) : Z :=
  match s with
  | "" => acc
  | String c r => decimalValueFrom (10 * acc + Z.of_nat (nat_of_ascii c - 48)) r
  end.

Definition decimalValue (s : string) : Z := decimalValueFrom 0 s.

(** The entry the loop pushes for [dep] when its request is number
    [request]. *)
Definition entryAt (fetch : nat -> string -> Response) (request : nat)
    (dep : Dep) : PackageAnalysis :=
  match _fetchPackageInfo fetch request (dep_name dep) with
  | Normal packageInfo => analysisOf dep packageInfo
  | Throw _ => failedEntry dep
  end.

(** The entries of a whole run that starts after [request] requests. *)
Fixpoint entriesFrom (fetch : nat -> string -> Response) (request : nat)
    (deps : list Dep) : list PackageAnalysis :=
  match deps with
  | [] => []
  | dep :: deps' =>
      entryAt fetch (S request) dep :: entriesFrom fetch (S request) deps'
  end.

(** [x] may stand before [y] for the comparator [c]. *)
Definition mayPrecede {A : Type} (c : A -> A -> comparison) (x y : A) : Prop :=
  c x y <> Gt.

(** [k] names a property of [Object.prototype]. *)
Definition inherited (k : string) : bool :=
  match JS.assoc k JS.objectPrototype with
  | Some _ => true
  | None => false
  end.

(** [k] joins the keys met so far, at the end if it is new. *)
Definition seen (acc : list string) (k : string) : list string :=
  if existsb (String.eqb k) acc then acc else (acc ++ [k])%list.

(** The distinct elements of [l] in the order of their first occurrence. *)
Definition firstSeen (l : list string) : list string := fold_left seen l [].

(** How many times [k] occurs in [l]. *)
Definition occurrences (k : string) (l : list string) : nat :=
  count_occ string_dec l k.

(** The table that counts the elements of [l]. *)
Definition tally (l : list string) : JS.object :=
  map (fun k => (k, JS.VNum (occurrences k l))) (firstSeen l).

(** The authors that [_generateReport] counts. *)
Definition counted (a : string) : bool :=
  negb (String.eqb a "") && negb (String.eqb a "unknown").

(** The authors of the counted packages, one per package, in order. *)
Definition countedAuthors (pkgs : list PackageAnalysis) : list string :=
  filter counted (map author pkgs).

(** The key under which a package's license is counted. *)
Definition licenseKey (pkg : PackageAnalysis) : string :=
  orString (Some (license pkg)) "unknown".

(** The count an entry carries; a cell that holds a string carries none. *)
Definition countOf (e : string * JS.value) : nat :=
  match snd e with
  | JS.VNum n => n
  | JS.VStr _ => 0
  end.

(** The entry carries the count [n]. *)
Definition hasCount (n : nat) (e : string * JS.value) : bool :=
  match snd e with
  | JS.VNum m => (m =? n)%nat
  | JS.VStr _ => false
  end.

(** The sum of the counts of a table. *)
Definition total (o : JS.object) : nat := list_sum (map countOf o).

(** The entry carries a count below 2^53. *)
Definition smallCount (e : string * JS.value) : Prop :=
  exists n, snd e = JS.VNum n /\ (Z.of_nat n < 2 ^ 53)%Z.

(** The author table of [_generateReport]. *)
Definition maintainerCount (pkgs : list PackageAnalysis) : JS.object :=
  fold_left countAuthor pkgs [].

(** [f] on the first, on the last element of a list. *)
Definition onFirst (f : string -> string) (l : list string) : list string :=
  match l with
  | [] => []
  | p :: ps => f p :: ps
  end.

Fixpoint onLast (f : string -> string) (l : list string) : list string :=
  match l with
  | [] => []
  | [p] => [f p]
  | p :: ps => p :: onLast f ps
  end.

(** ** Vocabulary of the further properties *)

(** *** Versions *)

(** The verdict of the loop on two arrays of parts. *)
Definition partsOutdated (a b : list JS.number) : bool :=
  compareFrom a b 0 (Nat.max (List.length a) (List.length b)).

(** A component of decimal digits that denotes an integer below 2^53. *)
Definition isDecimalComponent (p : string) : bool :=
  negb (String.eqb p "") && allDecimalDigits p
  && (decimalValue p <? 2 ^ 53)%Z.

(** A version made of such components. *)
Definition isDottedDecimal (s : string) : bool :=
  forallb isDecimalComponent (JS.split "." s).

(** The integers of a dotted decimal version. *)
Definition integerParts (s : string) : list Z :=
  map decimalValue (JS.split "." s).

(** Some integer of [l] is positive and none before it is negative: [l]
    is above a run of zeros. *)
Fixpoint aboveZeros (l : list Z) : bool :=
  match l with
  | [] => false
  | y :: l' =>
      if (0 <? y)%Z then true else if (y <? 0)%Z then false else aboveZeros l'
  end.

Fixpoint belowZeros (l : list Z) : bool :=
  match l with
  | [] => false
  | x :: l' =>
      if (x <? 0)%Z then true else if (0 <? x)%Z then false else belowZeros l'
  end.

(** The lexicographic order on integer sequences, the shorter one padded
    with zeros. *)
Fixpoint lexLess (a b : list Z) : bool :=
  match a, b with
  | [], _ => aboveZeros b
  | _, [] => belowZeros a
  | x :: a', y :: b' =>
      if (x <? y)%Z then true else if (y <? x)%Z then false else lexLess a' b'
  end.

(** The Number of an integer. *)
Definition ofZ (z : Z) : JS.number := JS.Fin (inject_Z z).

(** *** Declarations and requests *)

Definition sameType (t u : DependencyType) : bool :=
  match t, u with
  | dependency, dependency => true
  | devDependency, devDependency => true
  | peerDependency, peerDependency => true
  | _, _ => false
  end.

(** The name and version of the declarations of one type, in order. *)
Definition entriesOfType (t : DependencyType) (deps : list Dep)
    : list (string * string) :=
  map (fun d => (dep_name d, dep_version d))
    (filter (fun d => sameType (dep_type d) t) deps).

(** The entries of a table of the manifest, none when it is missing. *)
Definition tableEntries (table : option (list (string * string)))
    : list (string * string) :=
  match table with
  | Some es => es
  | None => []
  end.

(** The registry's answer to the request for [dep], if it has one. *)
Definition answered (fetch : nat -> string -> Response) (request : nat)
    (dep : Dep) : option NpmPackageInfo :=
  match fetch request (_npmRegistryUrl ++ "/" ++ dep_name dep ++ "/latest")
  with
  | Ok data => Some data
  | _ => None
  end.

(** The request numbers, from [request] + 1 on, that get an answer. *)
Fixpoint answeredFrom (fetch : nat -> string -> Response) (request : nat)
    (deps : list Dep) : list nat :=
  match deps with
  | [] => []
  | dep :: deps' =>
      match answered fetch (S request) dep with
      | Some _ => S request :: answeredFrom fetch (S request) deps'
      | None => answeredFrom fetch (S request) deps'
      end
  end.

(** How many of the declarations are behind the version the registry
    answers. *)
Fixpoint behindFrom (fetch : nat -> string -> Response) (request : nat)
    (deps : list Dep) : nat :=
  match deps with
  | [] => 0
  | dep :: deps' =>
      match answered fetch (S request) dep with
      | Some data =>
          if Comparator.isOutdated (dep_version dep) (info_version data)
          then S (behindFrom fetch (S request) deps')
          else behindFrom fetch (S request) deps'
      | None => behindFrom fetch (S request) deps'
      end
  end.

(** How many pauses of [ms] milliseconds were taken. *)
Definition pausesOf (ms : N) (st : Analyzer) : nat :=
  count_occ N.eq_dec (slept st) ms.

(** The request number calls for the long pause. *)
Definition atLimit (request : nat) : bool :=
  (request mod _maxRequestsPerMinute =? 0)%nat.

(** *** The report *)

(** What [((count / 0) * 100).toFixed(1)] prints. *)
Definition overZero (count : JS.number) : string :=
  if JS.toBoolean count
  then if JS.isNegative count then "-Infinity" else "Infinity"
  else "NaN".

(** Any key but [__proto__]. *)
Definition notProto (k : string) : bool := negb (String.eqb k "__proto__").

(** The author column of a row of the table of all packages. *)
Definition authorCell (pkg : PackageAnalysis) : string :=
  if (20 <? String.length (author pkg))%nat
  then substring 0 20 (author pkg) ++ "..."
  else author pkg.

(** * Properties *)

(** ** Numbers *)

Lemma lt_asym (x y : JS.number) : JS.lt x y = true -> JS.lt y x = false.
Proof.
  destruct x as [|[|]|a], y as [|[|]|b]; simpl; try congruence.
  intros H. apply negb_true_iff in H. apply negb_false_iff.
  apply Qle_bool_iff. destruct (Qlt_le_dec b a) as [Hlt|Hle].
  - apply Qlt_le_weak in Hlt. apply Qle_bool_iff in Hlt. congruence.
  - exact Hle.
Qed.

Lemma same_not_lt (x y : JS.number) : JS.same x y -> JS.lt x y = false.
Proof.
  destruct x as [|[|]|a], y as [|[|]|b]; simpl; try tauto; try congruence.
  intros H. apply negb_false_iff, Qle_bool_iff. rewrite H. apply Qle_refl.
Qed.

Lemma same_sym (x y : JS.number) : JS.same x y -> JS.same y x.
Proof.
  destruct x as [|[|]|a], y as [|[|]|b]; simpl; try tauto; try congruence.
Qed.

Lemma not_lt_same (x y : JS.number) :
  x <> JS.NaN -> y <> JS.NaN ->
  JS.lt x y = false -> JS.lt y x = false -> JS.same x y.
Proof.
  destruct x as [|[|]|a], y as [|[|]|b]; simpl; try congruence; try tauto.
  intros _ _ H1 H2.
  apply negb_false_iff, Qle_bool_iff in H1.
  apply negb_false_iff, Qle_bool_iff in H2.
  apply Qle_antisym; assumption.
Qed.

Lemma or0_not_NaN (x : JS.number) : JS.or0 x <> JS.NaN.
Proof. destruct x; unfold JS.or0; simpl; try discriminate.
  destruct (negb (Qeq_bool q 0)); discriminate. Qed.

Lemma at_or0_not_NaN (a : list JS.number) (i : nat) : JS.at_or0 a i <> JS.NaN.
Proof.
  unfold JS.at_or0. destruct (nth_error a i).
  - apply or0_not_NaN.
  - discriminate.
Qed.

Lemma at_or0_past (a : list JS.number) (i : nat) :
  (List.length a <= i)%nat -> JS.at_or0 a i = JS.zero.
Proof.
  intros H. unfold JS.at_or0.
  apply nth_error_None in H. now rewrite H.
Qed.

(** *** Integers below 2^53 are binary64 values *)

Lemma pow2_nonneg (k : Z) : (0 <= k)%Z -> (2 ^ k)%Q == inject_Z (2 ^ k).
Proof. intros H. symmetry. apply (Zpower_Qpower 2 k H). Qed.

Lemma pow2_neg (k : Z) : (k <= 0)%Z -> (2 ^ k)%Q == / inject_Z (2 ^ (- k)).
Proof.
  intros H. replace k with (- - k)%Z at 1 by lia.
  rewrite Qpower_opp. rewrite pow2_nonneg by lia. reflexivity.
Qed.

Lemma Qred_inject_Z (z : Z) : Qred (inject_Z z) = inject_Z z.
Proof. apply Qcanon.Qred_identity. simpl. apply Z.gcd_1_r. Qed.

Lemma round_half_even_Z (q : Q) (z : Z) :
  q == inject_Z z -> JS.round_half_even q = z.
Proof.
  intros H. unfold JS.round_half_even.
  assert (Qfloor q = z) as -> by (rewrite H; apply Qfloor_Z).
  assert (q - inject_Z z == 0) as E by (rewrite H; ring).
  cbv zeta. rewrite (Qcompare_comp _ _ E _ _ (Qeq_refl (1 # 2))). reflexivity.
Qed.

Lemma ilog2_Z (z : Z) : (0 < z)%Z -> JS.ilog2 (inject_Z z) = Z.log2 z.
Proof.
  intros H. unfold JS.ilog2. simpl. rewrite Z.sub_0_r.
  assert (Qle_bool (2 ^ Z.log2 z) (inject_Z z) = true) as ->; [|reflexivity].
  apply Qle_bool_iff. rewrite pow2_nonneg by apply Z.log2_nonneg.
  rewrite <- Zle_Qle. apply Z.log2_spec. exact H.
Qed.

Lemma round64_pos_Z (z : Z) :
  (0 < z < 2 ^ 53)%Z -> JS.round64_pos (inject_Z z) = JS.Fin (inject_Z z).
Proof.
  intros [Hpos Hlt]. unfold JS.round64_pos. rewrite ilog2_Z by exact Hpos.
  assert (Z.log2 z < 53)%Z as Hlog by (apply Z.log2_lt_pow2; lia).
  pose proof (Z.log2_nonneg z) as Hlog0.
  rewrite Z.max_l by lia.
  set (u := (Z.log2 z - 52)%Z).
  assert (inject_Z z / 2 ^ u == inject_Z (z * 2 ^ (- u))) as Em.
  { rewrite pow2_neg by (unfold u; lia).
    unfold Qdiv. rewrite Qinv_involutive. rewrite inject_Z_mult. reflexivity. }
  rewrite (round_half_even_Z _ _ Em).
  assert (inject_Z (z * 2 ^ (- u)) * 2 ^ u == inject_Z z) as Ev.
  { rewrite pow2_neg by (unfold u; lia). rewrite inject_Z_mult.
    field. intros E. 
    assert (0 < 2 ^ (- u))%Z by (apply Z.pow_pos_nonneg; unfold u; lia).
    rewrite (Zlt_Qlt 0) in H. rewrite E in H. now apply Qlt_irrefl in H. }
  assert (Qle_bool (2 ^ 1024) (inject_Z (z * 2 ^ (- u)) * 2 ^ u) = false) as ->.
  { rewrite Ev. destruct (Qle_bool _ _) eqn:E; [|reflexivity].
    apply Qle_bool_iff in E. rewrite pow2_nonneg in E by lia.
    rewrite <- Zle_Qle in E.
    assert (2 ^ 53 < 2 ^ 1024)%Z by (apply Z.pow_lt_mono_r; lia). lia. }
  f_equal. rewrite (Qred_complete _ _ Ev). apply Qred_inject_Z.
Qed.

Lemma of_nat_exact (n : nat) :
  (Z.of_nat n < 2 ^ 53)%Z -> JS.of_nat n = JS.Fin (inject_Z (Z.of_nat n)).
Proof.
  intros H. unfold JS.of_nat, JS.round64.
  destruct n as [|n]; [reflexivity|].
  assert ((inject_Z (Z.of_nat (S n)) ?= 0)%Q = Gt) as ->.
  { rewrite <- Qgt_alt. rewrite <- (Zlt_Qlt 0). lia. }
  apply round64_pos_Z. lia.
Qed.

(** *** [Number] on decimal digits *)

Lemma digit_decimal (c : ascii) :
  isDecimalDigit c = true ->
  JS.digit 10 c = Some (Z.of_nat (nat_of_ascii c - 48))
  /\ JS.isWhiteSpace c = false
  /\ Ascii.eqb c "+" = false /\ Ascii.eqb c "-" = false
  /\ Ascii.eqb c "x" = false /\ Ascii.eqb c "X" = false
  /\ Ascii.eqb c "o" = false /\ Ascii.eqb c "O" = false
  /\ Ascii.eqb c "b" = false /\ Ascii.eqb c "B" = false
  /\ Ascii.eqb c "I" = false.
Proof.
  destruct c as [[] [] [] [] [] [] [] []]; vm_compute; intros H;
    try discriminate H; repeat split.
Qed.

Lemma digits_decimal (s : string) :
  allDecimalDigits s = true ->
  forall acc count,
    JS.digits 10 acc count s
    = (decimalValueFrom acc s, (count + String.length s)%nat, "").
Proof.
  induction s as [|c r IH]; simpl; intros H acc count.
  - now rewrite Nat.add_0_r.
  - apply andb_true_iff in H. destruct H as [Hc Hr].
    destruct (digit_decimal c Hc) as [-> _].
    rewrite (IH Hr). rewrite (Z.mul_comm acc 10). simpl.
    rewrite <- plus_n_Sm. reflexivity.
Qed.

Lemma trimEnd_digits (s : string) :
  allDecimalDigits s = true -> JS.trimEnd s = s.
Proof.
  induction s as [|c r IH]; simpl; intros H; [reflexivity|].
  apply andb_true_iff in H. destruct H as [Hc Hr].
  rewrite (IH Hr). destruct (digit_decimal c Hc) as (_ & -> & _).
  now destruct r.
Qed.

Lemma decimalValueFrom_nonneg (s : string) (acc : Z) :
  (0 <= acc)%Z -> (0 <= decimalValueFrom acc s)%Z.
Proof.
  revert acc. induction s as [|c r IH]; cbn [decimalValueFrom];
    intros acc H; [exact H|].
  apply IH. pose proof (Nat2Z.is_nonneg (nat_of_ascii c - 48)). lia.
Qed.

Lemma round64_Z (z : Z) :
  (0 <= z < 2 ^ 53)%Z -> JS.round64 (inject_Z z) = JS.Fin (inject_Z z).
Proof.
  intros [H0 H]. unfold JS.round64.
  destruct (Z.eq_dec z 0) as [->|Hne]; [reflexivity|].
  assert ((inject_Z z ?= 0)%Q = Gt) as ->.
  { rewrite <- Qgt_alt. rewrite <- (Zlt_Qlt 0). lia. }
  apply round64_pos_Z. lia.
Qed.

Lemma Number_decimal (s : string) :
  s <> "" -> allDecimalDigits s = true -> (decimalValue s < 2 ^ 53)%Z ->
  JS.Number s = JS.Fin (inject_Z (decimalValue s)).
Proof.
  intros Hne Hd Hlt. destruct s as [|c r]; [congruence|].
  pose proof Hd as Hd'. simpl in Hd'. apply andb_true_iff in Hd'.
  destruct Hd' as [Hc Hr].
  destruct (digit_decimal c Hc)
    as (_ & Hws & Hp & Hm & Hx & HX & Ho & HO & Hb & HB & HI).
  unfold JS.Number, JS.trim.
  assert (JS.trimStart (String c r) = String c r) as ->
    by (simpl; now rewrite Hws).
  rewrite (trimEnd_digits _ Hd). simpl String.eqb.
  assert (JS.radixPrefix (String c r) = None) as ->.
  { simpl. destruct r as [|c' r']; [reflexivity|].
    simpl in Hr. apply andb_true_iff in Hr. destruct Hr as [Hc' _].
    destruct (digit_decimal c' Hc')
      as (_ & _ & _ & _ & -> & -> & -> & -> & -> & -> & _).
    simpl. now destruct (Ascii.eqb c "0"). }
  unfold JS.strDecimal. rewrite Hp, Hm. unfold JS.unsignedDecimal.
  assert (String.eqb (String c r) "Infinity" = false) as ->
    by (simpl; now rewrite HI).
  rewrite (digits_decimal _ Hd). simpl.
  unfold JS.scale10. simpl. rewrite Z.mul_1_r.
  apply round64_Z. split; [|exact Hlt].
  apply decimalValueFrom_nonneg. lia.
Qed.

(** ** The loop of the comparator *)

Section CompareFrom.

Variables installedParts latestParts : list JS.number.

Lemma compareFrom_true (n i : nat) :
  compareFrom installedParts latestParts i n = true <->
  exists k, (k < i + n)%nat
            /\ firstDifference installedParts latestParts i k /\
            JS.lt (JS.at_or0 installedParts k) (JS.at_or0 latestParts k) = true.
Proof.
  revert i. induction n as [|n IH]; intros i; simpl.
  - split; [discriminate|]. intros (k & Hk & (Hik & _) & _). lia.
  - unfold JS.gt.
    destruct (JS.lt (JS.at_or0 installedParts i) (JS.at_or0 latestParts i))
      eqn:Hlt.
    + split; [intros _|reflexivity].
      exists i. repeat split; try lia. exact Hlt.
    + destruct (JS.lt (JS.at_or0 latestParts i) (JS.at_or0 installedParts i))
        eqn:Hgt.
      * split; [discriminate|].
        intros (k & Hk & (Hik & Hsame) & Hk_lt).
        destruct (Nat.eq_dec k i) as [->|Hne]; [congruence|].
        assert (Hi : (i <= i < k)%nat) by lia.
        apply Hsame, same_sym, same_not_lt in Hi. congruence.
      * rewrite IH. split.
        -- intros (k & Hk & (Hik & Hsame) & Hk_lt).
           exists k. repeat split; try lia; [|exact Hk_lt].
           intros j Hj. destruct (Nat.eq_dec j i) as [->|Hne].
           ++ apply not_lt_same; auto; apply at_or0_not_NaN.
           ++ apply Hsame. lia.
        -- intros (k & Hk & (Hik & Hsame) & Hk_lt).
           destruct (Nat.eq_dec k i) as [->|Hne]; [congruence|].
           exists k. repeat split; try lia; [|exact Hk_lt].
           intros j Hj. apply Hsame. lia.
Qed.

(** Past the longer of the two arrays both parts read as 0. *)
Lemma lt_within (k : nat) :
  JS.lt (JS.at_or0 installedParts k) (JS.at_or0 latestParts k) = true ->
  (k < Nat.max (List.length installedParts) (List.length latestParts))%nat.
Proof.
  intros H.
  destruct (Nat.lt_ge_cases k
              (Nat.max (List.length installedParts) (List.length latestParts)))
    as [Hlt|Hge]; [exact Hlt|].
  rewrite !at_or0_past in H by lia. discriminate.
Qed.

Lemma compare_whole :
  compareFrom installedParts latestParts 0
    (Nat.max (List.length installedParts) (List.length latestParts)) = true <->
  exists k, firstDifference installedParts latestParts 0 k /\
            JS.lt (JS.at_or0 installedParts k) (JS.at_or0 latestParts k) = true.
Proof.
  rewrite compareFrom_true. split.
  - intros (k & _ & H). exists k. exact H.
  - intros (k & Hd & Hlt). exists k. split; [|tauto].
    simpl. now apply lt_within.
Qed.

End CompareFrom.

Lemma _isVersionOutdated_true (installed latest : string) :
  _isVersionOutdated installed latest = true <->
  exists k,
    firstDifference (versionParts installed) (versionParts latest) 0 k /\
    JS.lt (Comparator.component installed k) (Comparator.component latest k)
    = true.
Proof.
  unfold _isVersionOutdated, _isVersionOutdated_try. apply compare_whole.
Qed.

(** The loop reads its arrays only through [a[i] || 0]. *)
Lemma compareFrom_ext (a b a' b' : list JS.number) :
  (forall i, JS.at_or0 a i = JS.at_or0 a' i) ->
  (forall i, JS.at_or0 b i = JS.at_or0 b' i) ->
  forall n i, compareFrom a b i n = compareFrom a' b' i n.
Proof.
  intros Ha Hb n. induction n as [|n IH]; intros i; simpl; [reflexivity|].
  now rewrite Ha, Hb, IH.
Qed.

(** ** Trimming and splitting *)

Lemma whiteSpace_not_dot (c : ascii) :
  JS.isWhiteSpace c = true -> Ascii.eqb c "." = false.
Proof.
  destruct (Ascii.eqb c ".") eqn:E; [|reflexivity].
  apply Ascii.eqb_eq in E. subst. discriminate.
Qed.

Lemma trimEnd_cons (c : ascii) (r : string) :
  JS.trimEnd (String c r)
  = if String.eqb (JS.trimEnd r) "" && JS.isWhiteSpace c then ""
    else String c (JS.trimEnd r).
Proof.
  simpl. destruct (JS.trimEnd r); simpl; now destruct (JS.isWhiteSpace c).
Qed.

Lemma trimEnd_idempotent (s : string) :
  JS.trimEnd (JS.trimEnd s) = JS.trimEnd s.
Proof.
  induction s as [|c r IH]; [reflexivity|].
  rewrite trimEnd_cons.
  destruct (String.eqb (JS.trimEnd r) "" && JS.isWhiteSpace c) eqn:E;
    [reflexivity|].
  now rewrite trimEnd_cons, IH, E.
Qed.

Lemma trimStart_idempotent (s : string) :
  JS.trimStart (JS.trimStart s) = JS.trimStart s.
Proof.
  induction s as [|c r IH]; [reflexivity|]. simpl.
  destruct (JS.isWhiteSpace c) eqn:E; [exact IH|]. simpl. now rewrite E.
Qed.

Lemma trimStart_trimEnd (s : string) :
  JS.trimStart (JS.trimEnd s) = JS.trimEnd (JS.trimStart s).
Proof.
  induction s as [|c r IH]; [reflexivity|].
  rewrite trimEnd_cons. cbn [JS.trimStart].
  destruct (JS.isWhiteSpace c) eqn:Ec.
  - rewrite andb_true_r. rewrite <- IH.
    destruct (String.eqb (JS.trimEnd r) "") eqn:E.
    + apply String.eqb_eq in E. now rewrite E.
    + cbn [JS.trimStart]. now rewrite Ec.
  - rewrite andb_false_r. cbn [JS.trimStart]. rewrite Ec.
    rewrite trimEnd_cons, Ec. now rewrite andb_false_r.
Qed.

Lemma Number_trimStart (p : string) : JS.Number (JS.trimStart p) = JS.Number p.
Proof. unfold JS.Number, JS.trim. now rewrite trimStart_idempotent. Qed.

Lemma Number_trimEnd (p : string) : JS.Number (JS.trimEnd p) = JS.Number p.
Proof.
  unfold JS.Number, JS.trim.
  now rewrite trimStart_trimEnd, trimEnd_idempotent.
Qed.

Lemma split_not_nil (sep : ascii) (s : string) : JS.split sep s <> [].
Proof.
  destruct s as [|c r]; simpl; [discriminate|].
  destruct (Ascii.eqb c sep); [discriminate|].
  destruct (JS.split sep r); discriminate.
Qed.

Lemma split_trimStart (s : string) :
  JS.split "." (JS.trimStart s) = onFirst JS.trimStart (JS.split "." s).
Proof.
  induction s as [|c r IH]; [reflexivity|]. cbn [JS.trimStart JS.split].
  destruct (JS.isWhiteSpace c) eqn:Ec.
  - rewrite (whiteSpace_not_dot c Ec), IH.
    destruct (JS.split "." r) as [|p ps] eqn:E.
    + now apply split_not_nil in E.
    + simpl. now rewrite Ec.
  - cbn [JS.split]. destruct (Ascii.eqb c "."); [reflexivity|].
    destruct (JS.split "." r); simpl; now rewrite Ec.
Qed.

Lemma split_empty (s : string) : JS.split "." s = [""] -> s = "".
Proof.
  destruct s as [|c r]; [reflexivity|]. simpl.
  destruct (Ascii.eqb c ".").
  - intros H. injection H as H. now apply split_not_nil in H.
  - destruct (JS.split "." r); discriminate.
Qed.

Lemma split_trimEnd (s : string) :
  JS.split "." (JS.trimEnd s) = onLast JS.trimEnd (JS.split "." s).
Proof.
  induction s as [|c r IH]; [reflexivity|].
  rewrite trimEnd_cons. cbn [JS.split].
  destruct (JS.split "." r) as [|p ps] eqn:El;
    [now apply split_not_nil in El|].
  destruct (Ascii.eqb c ".") eqn:Edot.
  - assert (JS.isWhiteSpace c = false) as ->.
    { destruct (JS.isWhiteSpace c) eqn:Ec; [|reflexivity].
      apply whiteSpace_not_dot in Ec. congruence. }
    rewrite andb_false_r. cbn [JS.split]. rewrite Edot, IH. reflexivity.
  - destruct (String.eqb (JS.trimEnd r) "" && JS.isWhiteSpace c) eqn:E.
    + apply andb_true_iff in E. destruct E as [Er Ec].
      apply String.eqb_eq in Er. rewrite Er in IH. simpl in IH.
      destruct ps as [|q ps]; [|destruct ps; discriminate IH].
      simpl in IH. injection IH as IH. simpl. rewrite <- IH. now rewrite Ec.
    + cbn [JS.split]. rewrite Edot, IH.
      destruct ps as [|q ps]; [|reflexivity].
      cbn [onLast]. rewrite trimEnd_cons.
      destruct (String.eqb (JS.trimEnd p) "") eqn:Ep; [|reflexivity].
      apply String.eqb_eq in Ep. cbn [onLast] in IH. rewrite Ep in IH.
      apply split_empty in IH. rewrite IH in E. simpl in E. now rewrite E.
Qed.

Lemma map_Number_onFirst (l : list string) :
  map JS.Number (onFirst JS.trimStart l) = map JS.Number l.
Proof. destruct l; simpl; [reflexivity|]. now rewrite Number_trimStart. Qed.

Lemma map_Number_onLast (l : list string) :
  map JS.Number (onLast JS.trimEnd l) = map JS.Number l.
Proof.
  induction l as [|p ps IH]; [reflexivity|].
  destruct ps as [|q ps]; simpl; [now rewrite Number_trimEnd|].
  simpl in IH. now rewrite IH.
Qed.

(** The components of a string are those of the trimmed string. *)
Lemma versionParts_trim (s : string) :
  versionParts (JS.trim s) = versionParts s.
Proof.
  unfold versionParts, JS.trim.
  now rewrite split_trimEnd, map_Number_onLast, split_trimStart,
    map_Number_onFirst.
Qed.

Lemma _isVersionOutdated_trim (s latest : string) :
  _isVersionOutdated (JS.trim s) latest = _isVersionOutdated s latest.
Proof.
  unfold _isVersionOutdated, _isVersionOutdated_try.
  now rewrite versionParts_trim.
Qed.

(** ** The version comparator *)

Lemma firstDifference_0 (a b : list JS.number) (k : nat) :
  firstDifference a b 0 k <->
  forall j, (j < k)%nat -> JS.same (JS.at_or0 a j) (JS.at_or0 b j).
Proof.
  unfold firstDifference. split.
  - intros [_ H] j Hj. apply H. lia.
  - intros H. split; [lia|]. intros j Hj. apply H. lia.
Qed.

Lemma same_refl (x : JS.number) : x <> JS.NaN -> JS.same x x.
Proof.
  destruct x as [| |q]; simpl; [congruence|reflexivity|reflexivity].
Qed.

(** No version is outdated against itself. *)
Lemma _isVersionOutdated_irreflexive (v : string) :
  _isVersionOutdated v v = false.
Proof.
  apply not_true_is_false. intros Hout.
  apply _isVersionOutdated_true in Hout. destruct Hout as (k & _ & Hlt).
  rewrite same_not_lt in Hlt; [discriminate|].
  apply same_refl, at_or0_not_NaN.
Qed.

(** C8: two version strings whose components are equal one by one, a
    missing trailing component counting as 0, are not outdated. *)
Theorem isOutdated_equal_components (installed latest : string) :
  (forall i, JS.same (Comparator.component (_cleanVersion installed) i)
                     (Comparator.component latest i)) ->
  Comparator.isOutdated installed latest = false.
Proof.
  intros Hsame. apply not_true_is_false. intros Hout.
  apply _isVersionOutdated_true in Hout.
  destruct Hout as (k & _ & Hlt).
  specialize (Hsame k). apply same_not_lt in Hsame. congruence.
Qed.

(** "1.2" against "1.2.0". *)
Lemma isOutdated_equal_components_witness :
  Comparator.isOutdated "1.2" "1.2.0" = false.
Proof.
  apply (isOutdated_equal_components "1.2" "1.2.0").
  intros i. do 4 (destruct i as [|i]; [vm_compute; reflexivity|]).
  vm_compute. reflexivity.
Defined.

Lemma try_completes (installed latest : string) :
  exists b, _isVersionOutdated_try installed latest = Normal b.
Proof. unfold _isVersionOutdated_try. eexists. reflexivity. Qed.

Lemma zeroed_parts (l l' : list string) :
  Forall2 nanAsZero l l' ->
  forall i, JS.at_or0 (map JS.Number l) i = JS.at_or0 (map JS.Number l') i.
Proof.
  induction 1 as [|p p' l l' Hp _ IH]; intros i; [reflexivity|].
  destruct i as [|i]; [|apply IH].
  unfold JS.at_or0. simpl. destruct Hp as [[Hnan ->]| ->]; [|reflexivity].
  rewrite Hnan. reflexivity.
Qed.

(** C2, as the code has it: the comparator never raises, and a component
    that is not numeric is read as 0 and compared like any other (replacing
    it by "0" leaves the verdict as it is), rather than forcing the verdict
    to false. *)
Theorem isOutdated_total_nan_as_zero
    (installed latest installed' latest' : string) :
  zeroed (_cleanVersion installed) (_cleanVersion installed') ->
  zeroed latest latest' ->
  (exists b, _isVersionOutdated_try (_cleanVersion installed) latest
             = Normal b)
  /\ Comparator.isOutdated installed latest
     = Comparator.isOutdated installed' latest'.
Proof.
  intros Hi Hl. split; [apply try_completes|].
  unfold Comparator.isOutdated, _isVersionOutdated, _isVersionOutdated_try,
    versionParts, zeroed in *.
  rewrite !length_map.
  rewrite (Forall2_length Hi), (Forall2_length Hl).
  apply compareFrom_ext; now apply zeroed_parts.
Qed.

(** "^1.0.0-beta" reads as "1.0.0". *)
Lemma isOutdated_total_nan_as_zero_witness :
  Comparator.isOutdated "^1.0.0-beta" "1.0.1"
  = Comparator.isOutdated "1.0.0" "1.0.1".
Proof.
  apply (isOutdated_total_nan_as_zero "^1.0.0-beta" "1.0.1" "1.0.0" "1.0.1").
  - unfold zeroed. simpl.
    repeat (constructor;
            [first [right; reflexivity | left; split; reflexivity]|]).
    constructor.
  - unfold zeroed. simpl.
    repeat (constructor; [right; reflexivity|]). constructor.
Defined.

(** C2 fails as stated: "1.0.0-beta" has the component "0-beta", which is
    not numeric, and is outdated against "1.0.1". *)
Lemma isOutdated_non_numeric_counterexample :
  ~ (forall installed latest : string,
       (exists p, In p (JS.split "." (_cleanVersion installed)
                        ++ JS.split "." latest)%list
                  /\ JS.Number p = JS.NaN) ->
       Comparator.isOutdated installed latest = false).
Proof.
  intros H. specialize (H "1.0.0-beta" "1.0.1").
  assert (Comparator.isOutdated "1.0.0-beta" "1.0.1" = true) as E
    by (vm_compute; reflexivity).
  rewrite H in E; [discriminate|].
  exists "0-beta". split; [simpl; tauto|vm_compute; reflexivity].
Qed.

(** C7: [_analyzePackage] compares what [_cleanVersion] makes of the
    installed range.  When the range begins with exactly one of
    [^ ~ > = <], that character is stripped before the comparison: the
    entry keeps the range as it was declared, and its verdict is the one
    of the range without the operator, which is also the verdict of the
    entry the same package gets when it is declared without it. *)
Theorem isOutdated_strips_one_operator (fetch : nat -> string -> Response)
    (c : ascii) (bare : string) (dep : Dep) (data : NpmPackageInfo)
    (st : Analyzer) :
  isRangeOperator c = true ->
  startsWithOperator bare = false ->
  dep_version dep = String c bare ->
  _fetchPackageInfo fetch (S (_requestCount st)) (dep_name dep)
  = Normal data ->
  let latest := info_version data in
  let declaredBare := {| dep_name := dep_name dep; dep_version := bare;
                         dep_type := dep_type dep |} in
  _cleanVersion (String c bare) = JS.trim bare
  /\ exists st' p p',
       _analyzePackage fetch dep st = (st', Normal p)
       /\ _analyzePackage fetch declaredBare st = (st', Normal p')
       /\ installedVersion p = String c bare
       /\ latestVersion p = latest
       /\ isOutdated p = _isVersionOutdated (JS.trim bare) latest
       /\ isOutdated p = _isVersionOutdated bare latest
       /\ isOutdated p = isOutdated p'
       /\ isOutdated p = Comparator.isOutdated (String c bare) latest
       /\ isOutdated p' = Comparator.isOutdated bare latest.
Proof.
  intros Hc Hbare Hversion Hfetch latest declaredBare.
  assert (_cleanVersion (String c bare) = JS.trim bare) as E1.
  { unfold _cleanVersion. simpl. now rewrite Hc. }
  assert (_cleanVersion bare = JS.trim bare) as E2.
  { unfold _cleanVersion. destruct bare as [|c' r]; [reflexivity|].
    simpl in *. now rewrite Hbare. }
  split; [exact E1|].
  subst declaredBare. unfold _analyzePackage. cbn [_requestCount dep_name].
  rewrite Hfetch. do 3 eexists.
  split; [reflexivity|]. split; [reflexivity|].
  cbn [installedVersion latestVersion isOutdated analysisOf dep_version].
  unfold Comparator.isOutdated. rewrite Hversion, E1, E2. fold latest.
  rewrite (_isVersionOutdated_trim bare latest). repeat split.
Qed.

(** "^4.0.0" against "3.9.9" is not outdated, as "4.0.0" is not, while the
    range as it stands would be: its first component is not numeric and
    reads 0.  Against "4.20.5" it is outdated. *)
Lemma isOutdated_strips_one_operator_witness :
  (exists st' p,
     _analyzePackage (fun _ _ => Runs.answer "3.9.9" "MIT" "Hiroki Osame")
       {| dep_name := "tsx"; dep_version := "^4.0.0";
          dep_type := dependency |} (newAnalyzer [])
     = (st', Normal p)
     /\ isOutdated p = false)
  /\ _isVersionOutdated "^4.0.0" "3.9.9" = true
  /\ exists st' p,
       _analyzePackage (fun _ _ => Runs.answer "4.20.5" "MIT" "Hiroki Osame")
         {| dep_name := "tsx"; dep_version := "^4.0.0";
            dep_type := dependency |} (newAnalyzer [])
       = (st', Normal p)
       /\ isOutdated p = true.
Proof.
  split; [|split; [vm_compute; reflexivity|]].
  - destruct (isOutdated_strips_one_operator
                (fun _ _ => Runs.answer "3.9.9" "MIT" "Hiroki Osame")
                "^" "4.0.0"
                {| dep_name := "tsx"; dep_version := "^4.0.0";
                   dep_type := dependency |}
                (Recorded.info "3.9.9" "MIT"
                   (Some (AuthorString "Hiroki Osame")))
                (newAnalyzer []) eq_refl eq_refl eq_refl eq_refl)
      as (_ & st' & p & p' & Hrun & _ & _ & _ & _ & Hout & _).
    exists st', p. split; [exact Hrun|]. rewrite Hout.
    vm_compute. reflexivity.
  - destruct (isOutdated_strips_one_operator
                (fun _ _ => Runs.answer "4.20.5" "MIT" "Hiroki Osame")
                "^" "4.0.0"
                {| dep_name := "tsx"; dep_version := "^4.0.0";
                   dep_type := dependency |}
                (Recorded.info "4.20.5" "MIT"
                   (Some (AuthorString "Hiroki Osame")))
                (newAnalyzer []) eq_refl eq_refl eq_refl eq_refl)
      as (_ & st' & p & p' & Hrun & _ & _ & _ & _ & Hout & _).
    exists st', p. split; [exact Hrun|]. rewrite Hout.
    vm_compute. reflexivity.
Defined.

(** ** The store *)

Lemma length_write (h : store) (a : address) (v : list PackageAnalysis) :
  List.length (write h a v) = List.length h.
Proof.
  revert a. induction h as [|x h IH]; intros a; [reflexivity|].
  destruct a; simpl; [reflexivity|]. now rewrite IH.
Qed.

Lemma read_write (h : store) (a : address) (v : list PackageAnalysis) :
  (a < List.length h)%nat -> read (write h a v) a = v.
Proof.
  revert a. induction h as [|x h IH]; intros a H; simpl in H; [lia|].
  destruct a; [reflexivity|]. unfold read in *. simpl. apply IH. lia.
Qed.

Lemma read_write_other (h : store) (a b : address) (v : list PackageAnalysis) :
  a <> b -> read (write h a v) b = read h b.
Proof.
  revert a b. induction h as [|x h IH]; intros a b H; [reflexivity|].
  destruct a, b; try reflexivity; try congruence.
  unfold read in *. simpl. apply IH. congruence.
Qed.

Lemma read_alloc (h : store) :
  read (fst (alloc h)) (snd (alloc h)) = []
  /\ (snd (alloc h) < List.length (fst (alloc h)))%nat.
Proof.
  unfold alloc, read. simpl. split.
  - rewrite app_nth2 by lia. now rewrite Nat.sub_diag.
  - rewrite length_app. simpl. lia.
Qed.

Section AnalysisLoop.

Variable readJson : string -> completion PackageJson.
Variable fetch : nat -> string -> Response.

Lemma analyzeDep_spec (st : Analyzer) (dep : Dep) :
  (_packages st < List.length (heap st))%nat ->
  let st' := analyzeDep fetch st dep in
  _packages st' = _packages st
  /\ List.length (heap st') = List.length (heap st)
  /\ _requestCount st' = S (_requestCount st)
  /\ read (heap st') (_packages st)
     = (read (heap st) (_packages st)
        ++ [entryAt fetch (S (_requestCount st)) dep])%list.
Proof.
  intros Hvalid. unfold analyzeDep, _analyzePackage, entryAt. simpl.
  destruct (_fetchPackageInfo fetch (S (_requestCount st)) (dep_name dep))
    as [packageInfo|e]; simpl.
  - destruct (_ =? 0)%nat; simpl;
      rewrite length_write, read_write by exact Hvalid; auto.
  - rewrite length_write, read_write by exact Hvalid; auto.
Qed.

Lemma loop_spec (deps : list Dep) (st : Analyzer) :
  (_packages st < List.length (heap st))%nat ->
  let st' := fold_left (analyzeDep fetch) deps st in
  _packages st' = _packages st
  /\ List.length (heap st') = List.length (heap st)
  /\ _requestCount st' = (_requestCount st + List.length deps)%nat
  /\ read (heap st') (_packages st)
     = (read (heap st) (_packages st)
        ++ entriesFrom fetch (_requestCount st) deps)%list.
Proof.
  revert st. induction deps as [|dep deps IH]; intros st Hvalid; simpl.
  - rewrite app_nil_r. auto with arith.
  - destruct (analyzeDep_spec st dep Hvalid) as (Ha & Hl & Hr & Hread).
    assert (_packages (analyzeDep fetch st dep)
            < List.length (heap (analyzeDep fetch st dep)))%nat as Hvalid'
      by (rewrite Ha, Hl; exact Hvalid).
    destruct (IH _ Hvalid') as (Ha' & Hl' & Hr' & Hread').
    rewrite Ha in *. rewrite Ha', Hl', Hr', Hread', Hl, Hr, Hread.
    rewrite <- app_assoc. simpl. repeat split; auto; lia.
Qed.

Lemma length_entriesFrom (deps : list Dep) (request : nat) :
  List.length (entriesFrom fetch request deps) = List.length deps.
Proof.
  revert request. induction deps as [|d deps IH]; intros r; simpl; auto.
Qed.

Lemma nth_entriesFrom (deps : list Dep) (request i : nat) (dep : Dep) :
  nth_error deps i = Some dep ->
  nth_error (entriesFrom fetch request deps) i
  = Some (entryAt fetch (request + i + 1) dep).
Proof.
  revert request i. induction deps as [|d deps IH]; intros r i H.
  - destruct i; discriminate.
  - destruct i as [|i]; simpl in *.
    + injection H as ->. do 2 f_equal. lia.
    + rewrite (IH _ _ H). do 2 f_equal. lia.
Qed.

Lemma name_entryAt (request : nat) (dep : Dep) :
  name (entryAt fetch request dep) = dep_name dep.
Proof. unfold entryAt. now destruct (_fetchPackageInfo _ _ _). Qed.

Lemma names_entriesFrom (deps : list Dep) (request : nat) :
  map name (entriesFrom fetch request deps) = map dep_name deps.
Proof.
  revert request. induction deps as [|d deps IH]; intros r; simpl; auto.
  now rewrite name_entryAt, IH.
Qed.

(** What [analyzePackageJson] leaves behind when the manifest reads. *)
Lemma analyzePackageJson_spec (path : string) (st : Analyzer)
    (packageJson : PackageJson) :
  readJson path = Normal packageJson ->
  exists st',
    analyzePackageJson readJson fetch path st
    = (st', Normal (_generateReport st'))
    /\ (_packages st' < List.length (heap st'))%nat
    /\ read (heap st') (_packages st')
       = entriesFrom fetch (_requestCount st)
           (_extractDependencies packageJson).
Proof.
  intros Hread. unfold analyzePackageJson, _readPackageJson.
  rewrite Hread.
  destruct (read_alloc (heap st)) as [Hnil Hvalid].
  destruct (alloc (heap st)) as [h a] eqn:Ealloc. simpl in Hnil, Hvalid.
  set (st0 := {| heap := h; _packages := a;
                 _requestCount := _requestCount st; slept := slept st |}).
  destruct (loop_spec (_extractDependencies packageJson) st0 Hvalid)
    as (Ha & Hl & _ & Hr).
  eexists. split; [reflexivity|]. simpl in *.
  rewrite Ha, Hl. split; [exact Hvalid|].
  rewrite Hr, Hnil. reflexivity.
Qed.

End AnalysisLoop.

(** ** Sorting *)

Section SortFacts.

Context {A : Type}.
Variable c : A -> A -> comparison.

Lemma insert_permutation (x : A) (l : list A) :
  Permutation (x :: l) (JS.insert c x l).
Proof.
  induction l as [|y l IH]; simpl; [reflexivity|].
  destruct (c y x); try reflexivity.
  rewrite perm_swap. now constructor.
Qed.

Lemma sort_permutation (l : list A) : Permutation l (JS.sort c l).
Proof.
  induction l as [|x l IH]; simpl; [reflexivity|].
  rewrite <- insert_permutation. now constructor.
Qed.

Lemma length_sort (l : list A) : List.length (JS.sort c l) = List.length l.
Proof. symmetry. apply Permutation_length, sort_permutation. Qed.

(** Elements of [P] are compared consistently: swapping the arguments
    swaps the verdict. *)
Variable P : A -> Prop.
Hypothesis c_antisym : forall x y, P x -> P y -> c y x = CompOpp (c x y).

Lemma insert_sorted (x : A) (l : list A) :
  P x -> Forall P l ->
  Sorted (mayPrecede c) l -> Sorted (mayPrecede c) (JS.insert c x l).
Proof.
  intros Hx Hl Hs. induction Hs as [|y l Hs IH Hhd]; simpl.
  - repeat constructor.
  - inversion Hl as [|? ? Hy Hl']; subst.
    destruct (c y x) eqn:E.
    + constructor; [now constructor|]. constructor.
      unfold mayPrecede. rewrite (c_antisym y x Hy Hx), E. discriminate.
    + constructor; [now apply IH|].
      destruct Hhd as [|z l Hyz]; simpl.
      * constructor. unfold mayPrecede. congruence.
      * destruct (c z x); constructor; unfold mayPrecede; congruence.
    + constructor; [now constructor|]. constructor.
      unfold mayPrecede. rewrite (c_antisym y x Hy Hx), E. discriminate.
Qed.

Lemma sort_sorted (l : list A) :
  Forall P l -> Sorted (mayPrecede c) (JS.sort c l).
Proof.
  induction 1 as [|x l Hx Hl IH]; simpl; [constructor|].
  apply insert_sorted; auto.
  eapply Permutation_Forall; [apply sort_permutation|exact Hl].
Qed.

(** An array in order is left as it is, and only such an array is. *)
Lemma sort_fixed (l : list A) :
  Forall P l -> (JS.sort c l = l <-> Sorted (mayPrecede c) l).
Proof.
  intros Hl. split.
  - intros E. rewrite <- E. now apply sort_sorted.
  - induction 1 as [|x l Hs IH Hhd]; simpl; [reflexivity|].
    inversion Hl as [|? ? Hx Hl']; subst.
    rewrite (IH Hl'). destruct Hhd as [|y l Hxy]; [reflexivity|].
    inversion Hl' as [|? ? Hy _]; subst. simpl.
    unfold mayPrecede in Hxy. rewrite (c_antisym x y Hx Hy).
    destruct (c x y); simpl; congruence.
Qed.

End SortFacts.

(** The sort is stable: among the elements of a class [Q] that the
    comparator never orders strictly, the order is the one before the
    sort. *)
Lemma filter_insert {A : Type} (c : A -> A -> comparison) (Q : A -> bool)
    (x : A) (l : list A) :
  (forall y, Q x = true -> Q y = true -> c y x <> Lt) ->
  filter Q (JS.insert c x l) = filter Q (x :: l).
Proof.
  intros HQ. induction l as [|y l IH]; [reflexivity|].
  cbn [JS.insert]. destruct (c y x) eqn:E; try reflexivity.
  cbn [filter] in *. rewrite IH.
  destruct (Q x) eqn:Ex, (Q y) eqn:Ey; try reflexivity.
  exfalso. exact (HQ y eq_refl Ey E).
Qed.

Lemma filter_sort {A : Type} (c : A -> A -> comparison) (Q : A -> bool)
    (l : list A) :
  (forall x y, Q x = true -> Q y = true -> c y x <> Lt) ->
  filter Q (JS.sort c l) = filter Q l.
Proof.
  intros HQ. induction l as [|x l IH]; [reflexivity|].
  cbn [JS.sort]. rewrite filter_insert by (intros y; apply HQ).
  cbn [filter]. now rewrite IH.
Qed.

(** ** Tables *)

Lemma existsb_eqb (k : string) (l : list string) :
  existsb (String.eqb k) l = true <-> In k l.
Proof.
  rewrite existsb_exists. split.
  - intros (x & Hx & E). apply String.eqb_eq in E. now subst.
  - intros H. exists k. split; [exact H|apply String.eqb_refl].
Qed.

Lemma firstSeen_snoc (l : list string) (k : string) :
  firstSeen (l ++ [k]) = seen (firstSeen l) k.
Proof. unfold firstSeen. now rewrite fold_left_app. Qed.

Lemma firstSeen_spec (l : list string) :
  NoDup (firstSeen l) /\ forall k, In k (firstSeen l) <-> In k l.
Proof.
  induction l as [|k l [IHn IHi]] using rev_ind.
  - split; [constructor|reflexivity].
  - rewrite firstSeen_snoc. unfold seen.
    destruct (existsb (String.eqb k) (firstSeen l)) eqn:E.
    + apply existsb_eqb in E. split; [exact IHn|].
      intros j. rewrite in_app_iff, <- IHi. simpl.
      split; [tauto|]. intros [H|[<-|[]]]; auto.
    + assert (~ In k (firstSeen l)) as Hk.
      { intros H. apply existsb_eqb in H. congruence. }
      split.
      * apply NoDup_app; [exact IHn|repeat constructor; simpl; tauto|].
        intros j Hj [<-|[]]. exact (Hk Hj).
      * intros j. rewrite !in_app_iff, IHi. reflexivity.
Qed.

Lemma assoc_map (g : string -> JS.value) (keys : list string) (k : string) :
  JS.assoc k (map (fun j => (j, g j)) keys)
  = if existsb (String.eqb k) keys then Some (g k) else None.
Proof.
  induction keys as [|j keys IH]; simpl; [reflexivity|].
  rewrite (String.eqb_sym k j).
  destruct (String.eqb j k) eqn:E; simpl; [|exact IH].
  apply String.eqb_eq in E. now subst.
Qed.

Lemma update_map (g h : string -> JS.value) (keys : list string) (k : string) :
  NoDup keys ->
  (forall j, j <> k -> g j = h j) ->
  JS.update k (g k) (map (fun j => (j, h j)) keys)
  = map (fun j => (j, g j)) keys.
Proof.
  intros Hn Hg. induction Hn as [|j keys Hj Hn IH]; simpl; [reflexivity|].
  destruct (String.eqb j k) eqn:E.
  - apply String.eqb_eq in E. subst j. f_equal.
    apply map_ext_in. intros j Hin. f_equal. symmetry. apply Hg.
    intros ->. exact (Hj Hin).
  - apply String.eqb_neq in E. rewrite IH. now rewrite Hg.
Qed.

Lemma inherited_not_proto (k : string) :
  inherited k = false -> String.eqb k "__proto__" = false.
Proof.
  intros H. destruct (String.eqb k "__proto__") eqn:E; [|reflexivity].
  apply String.eqb_eq in E. subst. discriminate H.
Qed.

Lemma occurrences_snoc (j k : string) (l : list string) :
  occurrences j (l ++ [k])
  = (occurrences j l + if String.eqb k j then 1 else 0)%nat.
Proof.
  unfold occurrences. rewrite count_occ_app. simpl.
  destruct (string_dec k j) as [->|Hne].
  - now rewrite String.eqb_refl.
  - apply String.eqb_neq in Hne. now rewrite Hne.
Qed.

(** Counting one more [k] is [t[k] = (t[k] || 0) + 1], unless [k] names a
    property of [Object.prototype]. *)
Lemma tally_snoc (l : list string) (k : string) :
  inherited k = false ->
  tally (l ++ [k]) = JS.increment (tally l) k.
Proof.
  intros Hk. destruct (firstSeen_spec l) as [Hn Hi].
  unfold JS.increment, JS.set, JS.get, tally.
  rewrite (inherited_not_proto k Hk), firstSeen_snoc.
  rewrite (assoc_map (fun j => JS.VNum (occurrences j l))).
  unfold seen. destruct (existsb (String.eqb k) (firstSeen l)) eqn:E.
  - cbn [JS.orZeroPlusOne].
    pose (g := fun j => JS.VNum (occurrences j (l ++ [k]))).
    assert (JS.VNum (occurrences k l + 1) = g k) as ->
      by (unfold g; now rewrite occurrences_snoc, String.eqb_refl).
    symmetry. apply (update_map g); [exact Hn|].
    intros j Hj. unfold g. rewrite occurrences_snoc.
    apply not_eq_sym, String.eqb_neq in Hj. rewrite Hj.
    now rewrite Nat.add_0_r.
  - unfold inherited in Hk.
    destruct (JS.assoc k JS.objectPrototype); [discriminate|].
    cbn [JS.orZeroPlusOne]. rewrite map_app. cbn [map]. f_equal.
    + apply map_ext_in. intros j Hj. rewrite occurrences_snoc.
      destruct (String.eqb k j) eqn:Ej; [|now rewrite Nat.add_0_r].
      apply String.eqb_eq in Ej. subst j.
      apply existsb_eqb in Hj. congruence.
    + rewrite occurrences_snoc, String.eqb_refl.
      assert (occurrences k l = 0%nat) as ->; [|reflexivity].
      apply count_occ_not_In. rewrite <- Hi. intros H.
      apply existsb_eqb in H. congruence.
Qed.

Lemma fold_increment (l : list string) :
  Forall (fun k => inherited k = false) l ->
  fold_left JS.increment l [] = tally l.
Proof.
  induction l as [|k l IH] using rev_ind; intros H; [reflexivity|].
  apply Forall_app in H. destruct H as [Hl Hk].
  inversion Hk; subst.
  rewrite fold_left_app. simpl. rewrite IH by exact Hl.
  symmetry. now apply tally_snoc.
Qed.

(** ** The aggregator *)

Lemma fold_countAuthor (pkgs : list PackageAnalysis) (o : JS.object) :
  fold_left countAuthor pkgs o
  = fold_left JS.increment (countedAuthors pkgs) o.
Proof.
  revert o. induction pkgs as [|p pkgs IH]; intros o; [reflexivity|].
  unfold countedAuthors in *. cbn [fold_left map filter].
  rewrite IH. unfold countAuthor, counted.
  now destruct (negb (String.eqb (author p) "")
                && negb (String.eqb (author p) "unknown")).
Qed.

Lemma fold_countLicense (pkgs : list PackageAnalysis) (o : JS.object) :
  fold_left countLicense pkgs o
  = fold_left JS.increment (map licenseKey pkgs) o.
Proof.
  revert o. induction pkgs as [|p pkgs IH]; intros o; [reflexivity|].
  cbn [fold_left map]. now rewrite IH.
Qed.

Lemma keys_update (k : string) (v : JS.value) (o : JS.object) :
  map fst (JS.update k v o) = map fst o.
Proof.
  induction o as [|[j w] o IH]; simpl; [reflexivity|].
  destruct (String.eqb j k); simpl; now rewrite ?IH.
Qed.

Lemma keys_increment (o : JS.object) (k j : string) :
  In j (map fst (JS.increment o k)) -> In j (map fst o) \/ j = k.
Proof.
  unfold JS.increment, JS.set.
  destruct (String.eqb k "__proto__"); [tauto|].
  destruct (JS.assoc k o).
  - rewrite keys_update. tauto.
  - rewrite map_app, in_app_iff. simpl. intuition.
Qed.

Lemma keys_fold_increment (l : list string) (o : JS.object) (j : string) :
  In j (map fst (fold_left JS.increment l o)) -> In j (map fst o) \/ In j l.
Proof.
  revert o. induction l as [|k l IH]; intros o H; simpl in *; [tauto|].
  apply IH in H. destruct H as [H|H]; [|tauto].
  apply keys_increment in H. intuition.
Qed.

Lemma In_entries (o : JS.object) (e : string * JS.value) :
  In e (JS.entries o) <-> In e o.
Proof.
  unfold JS.entries. rewrite in_app_iff.
  rewrite <- (Permutation_in' eq_refl (sort_permutation JS.compareIndex _)).
  rewrite !filter_In. destruct (JS.isArrayIndex (fst e)); simpl; intuition.
Qed.

Lemma In_firstn {A : Type} (n : nat) (l : list A) (x : A) :
  In x (firstn n l) -> In x l.
Proof.
  intros H. rewrite <- (firstn_skipn n l). apply in_app_iff. now left.
Qed.

Lemma byCountDescending_small (x y : string * JS.value) :
  smallCount x -> smallCount y ->
  JS.byCountDescending x y = Nat.compare (countOf y) (countOf x).
Proof.
  intros (n & En & Hn) (m & Em & Hm).
  unfold JS.byCountDescending, countOf. rewrite En, Em. simpl.
  rewrite !of_nat_exact by assumption. simpl.
  unfold Qcompare. simpl. rewrite !Z.mul_1_r. apply Nat2Z.inj_compare.
Qed.

Lemma signOfDifference_refl (x : JS.number) : JS.signOfDifference x x = Eq.
Proof.
  destruct x as [|[|]|q]; try reflexivity.
  simpl. apply Qeq_alt. reflexivity.
Qed.

(** Cells with the same count are never ordered strictly. *)
Lemma same_count_tie (n : nat) (x y : string * JS.value) :
  hasCount n x = true -> hasCount n y = true ->
  JS.byCountDescending y x <> Lt.
Proof.
  unfold hasCount, JS.byCountDescending.
  destruct (snd x) as [a|], (snd y) as [b|]; try discriminate.
  intros Ha Hb. apply Nat.eqb_eq in Ha, Hb. subst. simpl.
  rewrite signOfDifference_refl. discriminate.
Qed.

Lemma occurrences_le (k : string) (l : list string) :
  (occurrences k l <= List.length l)%nat.
Proof. apply count_occ_bound. Qed.

Lemma countedAuthors_le (pkgs : list PackageAnalysis) :
  (List.length (countedAuthors pkgs) <= List.length pkgs)%nat.
Proof.
  unfold countedAuthors. rewrite <- (length_map author pkgs).
  apply filter_length_le.
Qed.

Lemma tally_small (l : list string) :
  (Z.of_nat (List.length l) < 2 ^ 53)%Z -> Forall smallCount (tally l).
Proof.
  intros H. unfold tally. apply Forall_map, Forall_forall. intros k _.
  exists (occurrences k l). split; [reflexivity|].
  pose proof (occurrences_le k l). lia.
Qed.

Lemma Sorted_descending (l : list (string * JS.value)) :
  Forall smallCount l ->
  Sorted (mayPrecede JS.byCountDescending) l ->
  StronglySorted (fun x y => (countOf y <= countOf x)%nat) l.
Proof.
  intros Hl Hs. apply Sorted_StronglySorted.
  - intros x y z Hxy Hyz. lia.
  - induction Hs as [|x l Hs IH Hhd]; constructor.
    + apply IH. now inversion Hl.
    + inversion Hl as [|? ? Hx Hl']; subst.
      destruct Hhd as [|y l Hxy]; constructor.
      inversion Hl' as [|? ? Hy _]; subst.
      unfold mayPrecede in Hxy.
      rewrite (byCountDescending_small x y Hx Hy) in Hxy.
      apply Nat.compare_le_iff in Hxy. exact Hxy.
Qed.

Lemma StronglySorted_firstn {A : Type} (R : A -> A -> Prop) (n : nat)
    (l : list A) :
  StronglySorted R l -> StronglySorted R (firstn n l).
Proof.
  intros H. revert n. induction H as [|x l Hs IH Hx]; intros n.
  - rewrite firstn_nil. constructor.
  - destruct n; simpl; constructor; [apply IH|].
    apply Forall_forall. intros y Hy.
    rewrite Forall_forall in Hx. apply Hx. eapply In_firstn. exact Hy.
Qed.

Lemma filter_firstn_prefix {A : Type} (Q : A -> bool) (n : nat) (l : list A) :
  filter Q l = (filter Q (firstn n l) ++ filter Q (skipn n l))%list.
Proof. now rewrite <- filter_app, firstn_skipn. Qed.

Lemma byCountDescending_antisym (x y : string * JS.value) :
  smallCount x -> smallCount y ->
  JS.byCountDescending y x = CompOpp (JS.byCountDescending x y).
Proof.
  intros Hx Hy. rewrite !byCountDescending_small by assumption.
  apply Nat.compare_antisym.
Qed.

Lemma topMaintainers_eq (st : Analyzer) :
  topMaintainers (_generateReport st)
  = firstn 10
      (JS.sort JS.byCountDescending
         (JS.entries (maintainerCount (read (heap st) (_packages st))))).
Proof. reflexivity. Qed.

(** C6, as the code has it: the list of top authors has at most 10 entries
    and none for "unknown".  When no counted author is named like a
    property of [Object.prototype], it is the first 10 of the author table
    sorted by count: each entry carries the number of packages of its
    author, the counts go down, and entries of equal count keep the order
    of [Object.entries] on the table, which lists the names that are array
    indices first, in ascending order, and then the other names in the
    order they were first met. *)
Theorem topMaintainers_spec (st : Analyzer) :
  let pkgs := read (heap st) (_packages st) in
  let top := topMaintainers (_generateReport st) in
  let table := tally (countedAuthors pkgs) in
  (List.length top <= 10)%nat
  /\ (forall e, In e top -> fst e <> "unknown")
  /\ (Forall (fun a => inherited a = false) (countedAuthors pkgs) ->
      (Z.of_nat (List.length pkgs) < 2 ^ 53)%Z ->
      top = firstn 10 (JS.sort JS.byCountDescending (JS.entries table))
      /\ (forall e, In e top ->
            snd e = JS.VNum (occurrences (fst e) (countedAuthors pkgs)))
      /\ StronglySorted (fun x y => (countOf y <= countOf x)%nat) top
      /\ forall n, exists rest,
           filter (hasCount n) (JS.entries table)
           = (filter (hasCount n) top ++ rest)%list).
Proof.
  intros pkgs top table. unfold top. rewrite topMaintainers_eq. fold pkgs.
  split; [apply firstn_le_length|]. split.
  { intros [k v] He Ek. simpl in Ek. subst k.
    apply In_firstn in He.
    apply (Permutation_in _ (Permutation_sym (sort_permutation _ _))) in He.
    rewrite In_entries in He. apply (in_map fst) in He. simpl in He.
    unfold maintainerCount in He. rewrite fold_countAuthor in He.
    apply keys_fold_increment in He. destruct He as [[]|He].
    unfold countedAuthors in He. apply filter_In in He.
    destruct He as [_ He]. discriminate He. }
  intros Hsafe Hlen. unfold maintainerCount.
  rewrite fold_countAuthor, (fold_increment _ Hsafe). fold table.
  assert (Forall smallCount (JS.entries table)) as Hsmall.
  { apply Forall_forall. intros e He. rewrite In_entries in He.
    revert e He. apply Forall_forall. apply tally_small.
    pose proof (countedAuthors_le pkgs). lia. }
  split; [reflexivity|]. split; [|split].
  - intros e He. apply In_firstn in He.
    apply (Permutation_in _ (Permutation_sym (sort_permutation _ _))) in He.
    rewrite In_entries in He. unfold table, tally in He.
    apply in_map_iff in He. destruct He as (k & <- & _). reflexivity.
  - apply StronglySorted_firstn, Sorted_descending.
    + eapply Permutation_Forall; [apply sort_permutation|exact Hsmall].
    + apply (sort_sorted _ smallCount); [|exact Hsmall].
      intros x y Hx Hy. now apply byCountDescending_antisym.
  - intros n. eexists.
    rewrite <- (filter_sort JS.byCountDescending (hasCount n)
                  (JS.entries table)) by (intros x y; apply same_count_tie).
    apply filter_firstn_prefix.
Qed.

(** The order of [Object.entries] on the table of a list: the keys that are
    array indices, in ascending order, then the other keys in the order of
    their first occurrence. *)
Lemma entries_tally_order (l : list string) :
  let indexed := filter (fun e => JS.isArrayIndex (fst e)) (tally l) in
  let others := filter (fun e => negb (JS.isArrayIndex (fst e))) (tally l) in
  JS.entries (tally l) = (JS.sort JS.compareIndex indexed ++ others)%list
  /\ Sorted (mayPrecede JS.compareIndex) (JS.sort JS.compareIndex indexed)
  /\ map fst others
     = filter (fun k => negb (JS.isArrayIndex k)) (firstSeen l).
Proof.
  intros indexed others. split; [reflexivity|]. split.
  - apply (sort_sorted _ (fun e => JS.isArrayIndex (fst e) = true)).
    + intros x y Hx Hy. unfold JS.compareIndex, JS.isArrayIndex in *.
      destruct (JS.arrayIndex (fst x)), (JS.arrayIndex (fst y));
        try discriminate.
      apply Z.compare_antisym.
    + apply Forall_forall. intros e He. unfold indexed in He.
      apply filter_In in He. tauto.
  - unfold others, tally. induction (firstSeen l) as [|k ks IH];
      [reflexivity|].
    cbn [map filter fst]. destruct (JS.isArrayIndex k); simpl; now rewrite IH.
Qed.

Lemma list_sum_zero {A : Type} (l : list A) :
  list_sum (map (fun _ => 0%nat) l) = 0%nat.
Proof. induction l; simpl; auto. Qed.

Lemma list_sum_plus {A : Type} (f g : A -> nat) (l : list A) :
  list_sum (map (fun x => (f x + g x)%nat) l)
  = (list_sum (map f l) + list_sum (map g l))%nat.
Proof. induction l as [|x l IH]; simpl; [reflexivity|]. rewrite IH. lia. Qed.

Lemma sum_indicator (x : string) (keys : list string) :
  NoDup keys -> In x keys ->
  list_sum (map (fun j => if string_dec x j then 1 else 0)%nat keys) = 1%nat.
Proof.
  induction 1 as [|k keys Hk Hn IH]; intros Hx; [destruct Hx|].
  simpl. destruct (string_dec x k) as [->|Hne].
  - rewrite (map_ext_in _ (fun _ => 0%nat)).
    + now rewrite list_sum_zero.
    + intros j Hj. destruct (string_dec k j) as [->|]; [tauto|reflexivity].
  - destruct Hx as [->|Hx]; [congruence|]. now apply IH.
Qed.

Lemma sum_occurrences (keys l : list string) :
  NoDup keys -> (forall x, In x l -> In x keys) ->
  list_sum (map (fun j => occurrences j l) keys) = List.length l.
Proof.
  intros Hn. induction l as [|x l IH]; intros Hin.
  - apply list_sum_zero.
  - rewrite (map_ext _ (fun j => ((if string_dec x j then 1 else 0)
                                  + occurrences j l)%nat)).
    + rewrite list_sum_plus, sum_indicator, IH; simpl; auto.
      * intros y Hy. apply Hin. now right.
      * apply Hin. now left.
    + intros j. unfold occurrences. simpl. now destruct (string_dec x j).
Qed.

Lemma total_tally (l : list string) : total (tally l) = List.length l.
Proof.
  destruct (firstSeen_spec l) as [Hn Hi].
  unfold total, tally. rewrite map_map. simpl.
  apply sum_occurrences; [exact Hn|]. intros x. apply Hi.
Qed.

(** C5, where it holds: when no license is named like a property of
    [Object.prototype], the cells of the histogram are counts and sum to
    [totalPackages]. *)
Lemma licenseDistribution_total (st : Analyzer) :
  let pkgs := read (heap st) (_packages st) in
  Forall (fun k => inherited k = false) (map licenseKey pkgs) ->
  licenseDistribution (_generateReport st) = tally (map licenseKey pkgs)
  /\ total (licenseDistribution (_generateReport st))
     = totalPackages (_generateReport st).
Proof.
  intros pkgs Hsafe. simpl. fold pkgs.
  rewrite fold_countLicense, (fold_increment _ Hsafe).
  split; [reflexivity|]. rewrite total_tally. apply length_map.
Qed.

(** ** The analysis loop and the report *)

Section Analysis.

Variable readJson : string -> completion PackageJson.
Variable fetch : nat -> string -> Response.

(** C3: when the manifest reads, the call returns a report and every
    dependency has been asked for, one request each, whatever became of
    the requests before it.  The collected array has one entry per
    dependency, in the order of the manifest: the entry of a dependency
    whose fetch fails is the placeholder of the [catch] (latest version,
    license and author "unknown", not outdated), and the entry of a
    dependency whose fetch succeeds, be it after a failed one, is built
    from the registry's answer. *)
Theorem fetch_failure_keeps_going (path : string) (st : Analyzer)
    (packageJson : PackageJson) :
  readJson path = Normal packageJson ->
  exists st' report,
    analyzePackageJson readJson fetch path st = (st', Normal report)
    /\ let allDeps := _extractDependencies packageJson in
       let pkgs := read (heap st') (packages report) in
       List.length pkgs = List.length allDeps
       /\ _requestCount st' = (_requestCount st + List.length allDeps)%nat
       /\ forall i dep,
            nth_error allDeps i = Some dep ->
            exists p,
              nth_error pkgs i = Some p
              /\ name p = dep_name dep
              /\ installedVersion p = dep_version dep
              /\ dependencyType p = dep_type dep
              /\ match _fetchPackageInfo fetch (_requestCount st + i + 1)
                          (dep_name dep) with
                 | Throw _ =>
                     p = failedEntry dep
                     /\ latestVersion p = "unknown"
                     /\ license p = "unknown"
                     /\ author p = "unknown"
                     /\ isOutdated p = false
                 | Normal data =>
                     p = analysisOf dep data
                     /\ latestVersion p = info_version data
                     /\ license p = orString (info_license data) "unknown"
                     /\ author p = _formatAuthor (info_author data)
                     /\ isOutdated p
                        = _isVersionOutdated (_cleanVersion (dep_version dep))
                            (info_version data)
                 end.
Proof.
  intros Hread.
  destruct (analyzePackageJson_spec readJson fetch path st packageJson Hread)
    as (st' & Hrun & _ & Hpkgs).
  exists st', (_generateReport st'). split; [exact Hrun|].
  cbn [packages _generateReport]. rewrite Hpkgs.
  split; [apply length_entriesFrom|]. split.
  - revert Hrun. unfold analyzePackageJson, _readPackageJson.
    rewrite Hread. destruct (read_alloc (heap st)) as [_ Hvalid].
    unfold alloc in *. cbn [fst snd] in Hvalid.
    intros Hrun. injection Hrun as <-.
    match goal with
    | |- _requestCount (fold_left _ ?deps ?st0) = _ =>
        destruct (loop_spec fetch deps st0 Hvalid) as (_ & _ & Hcount & _)
    end.
    exact Hcount.
  - intros i dep Hdep.
    exists (entryAt fetch (_requestCount st + i + 1) dep).
    rewrite (nth_entriesFrom fetch _ _ _ _ Hdep). unfold entryAt.
    destruct (_fetchPackageInfo fetch (_requestCount st + i + 1)
                (dep_name dep)); repeat split; reflexivity.
Qed.

End Analysis.

(** The registry answers 404 for the second of three packages: the third
    is asked for all the same, and its entry carries the answer. *)
Lemma fetch_failure_keeps_going_witness :
  exists st' report,
    Runs.run Runs.missingManifest Runs.missingRegistry = (st', Normal report)
    /\ _requestCount st' = 3%nat
    /\ (exists p,
          nth_error (read (heap st') (packages report)) 1 = Some p
          /\ name p = "no-such-package"
          /\ latestVersion p = "unknown" /\ isOutdated p = false)
    /\ (exists p,
          nth_error (read (heap st') (packages report)) 2 = Some p
          /\ name p = "tsx"
          /\ latestVersion p = "4.20.5" /\ isOutdated p = true).
Proof.
  destruct (fetch_failure_keeps_going (fun _ => Normal Runs.missingManifest)
              Runs.missingRegistry "./package.json" (newAnalyzer [])
              Runs.missingManifest eq_refl)
    as (st' & report & Hrun & _ & Hcount & Hentry).
  exists st', report. split; [exact Hrun|]. split; [exact Hcount|]. split.
  - destruct (Hentry 1%nat
                {| dep_name := "no-such-package"; dep_version := "1.0.0";
                   dep_type := dependency |} eq_refl)
      as (p & Hp & Hname & _ & _ & _ & Hlatest & _ & _ & Hout).
    exists p. auto.
  - destruct (Hentry 2%nat
                {| dep_name := "tsx"; dep_version := "^4.0.0";
                   dep_type := dependency |} eq_refl)
      as (p & Hp & Hname & _ & _ & _ & Hlatest & _ & _ & Hout).
    exists p. auto.
Defined.

Lemma append_assoc (a b c : string) : (a ++ b) ++ c = a ++ b ++ c.
Proof. induction a as [|x a IH]; simpl; [reflexivity|]. now rewrite IH. Qed.

Section Report.

Variable readJson : string -> completion PackageJson.
Variable fetch : nat -> string -> Response.
Variable localeCompare : string -> string -> comparison.
Variable now : string.
Variable numberToString : Q -> string.

(** C4: [totalPackages] is the length of the collected array, which has
    one entry per manifest entry, fetched or failed, in the order of the
    manifest; rendering the report sorts the array but leaves as many
    entries as [totalPackages] says. *)
Theorem totalPackages_counts_entries (path outputPath : string)
    (st : Analyzer) (packageJson : PackageJson) :
  readJson path = Normal packageJson ->
  exists st' report,
    analyzePackageJson readJson fetch path st = (st', Normal report)
    /\ let allDeps := _extractDependencies packageJson in
       let pkgs := read (heap st') (packages report) in
       let h' := fst (generateReportFile localeCompare now numberToString
                        report outputPath (heap st')) in
       totalPackages report = List.length allDeps
       /\ totalPackages report = List.length pkgs
       /\ pkgs = entriesFrom fetch (_requestCount st) allDeps
       /\ map name pkgs = map dep_name allDeps
       /\ List.length (read h' (packages report)) = totalPackages report.
Proof.
  intros Hread.
  destruct (analyzePackageJson_spec readJson fetch path st packageJson Hread)
    as (st' & Hrun & Hvalid & Hpkgs).
  exists st', (_generateReport st'). split; [exact Hrun|].
  cbn [packages totalPackages _generateReport generateReportFile fst].
  rewrite read_write by exact Hvalid. rewrite length_sort.
  rewrite Hpkgs, length_entriesFrom, names_entriesFrom. auto.
Qed.

(** C9: with [totalPackages] at 0 every percentage is a division by zero,
    which nothing guards and which raises nothing: it prints as NaN for a
    zero (or non-numeric) count and as an infinity otherwise.
    [generateReportFile] renders such a report in full: with no outdated
    package the summary of the file reads "0 (NaN%)", each license line
    carries such a percentage, and the rest of the file follows. *)
Theorem percentage_of_nothing (report : AnalysisReport) (outputPath : string)
    (h : store) :
  totalPackages report = 0%nat ->
  (forall count,
     percentage numberToString count (JS.of_nat (totalPackages report))
     = overZero count)
  /\ (outdatedPackages report = 0%nat ->
      generateReportFile localeCompare now numberToString report outputPath
        h
      = (write h (packages report)
           (JS.sort (byName localeCompare) (read h (packages report))),
         (outputPath,
          "# Package Dependency Analysis Report" ++ nl ++ nl
          ++ "Generated on: " ++ now ++ nl ++ nl
          ++ "## Summary" ++ nl ++ nl
          ++ "- **Total Packages**: 0" ++ nl
          ++ "- **Outdated Packages**: 0 (NaN%)" ++ nl ++ nl
          ++ "## License Distribution" ++ nl ++ nl
          ++ String.concat ""
               (map (fun e =>
                       "- **" ++ fst e ++ "**: " ++ JS.toString (snd e)
                       ++ " packages ("
                       ++ overZero (JS.toNumber (snd e)) ++ "%)" ++ nl)
                  (JS.sort JS.byCountDescending
                     (JS.entries (licenseDistribution report))))
          ++ maintainerLines report
          ++ outdatedTable (filter isOutdated (read h (packages report)))
          ++ packagesTable
               (JS.sort (byName localeCompare)
                  (read h (packages report)))))).
Proof.
  intros Htotal.
  assert (forall count,
            percentage numberToString count (JS.of_nat (totalPackages report))
            = overZero count) as Hp.
  { intros count. rewrite Htotal. unfold percentage, overZero.
    change (JS.of_nat 0) with JS.zero.
    change (JS.of_nat 100) with (JS.Fin 100).
    destruct count as [|[|]|q]; try reflexivity.
    unfold JS.div, JS.zero. cbn [JS.toBoolean JS.isNegative].
    change (Qeq_bool 0 0) with true. cbn iota.
    destruct (Qeq_bool q 0); [reflexivity|].
    cbn [negb JS.mul JS.isNegative]. change (Qeq_bool 100 0) with false.
    cbn iota. change (negb (Qle_bool 0 100)) with false.
    rewrite xorb_false_r. now destruct (negb (Qle_bool 0 q)). }
  split; [exact Hp|]. intros Hout.
  unfold generateReportFile. f_equal. f_equal.
  assert (summaryLines numberToString report
          = "## Summary" ++ nl ++ nl ++ "- **Total Packages**: 0" ++ nl
            ++ "- **Outdated Packages**: 0 (NaN%)" ++ nl ++ nl) as ->.
  { unfold summaryLines. rewrite Hp, Htotal, Hout. reflexivity. }
  assert (licenseLines numberToString report
          = "## License Distribution" ++ nl ++ nl
            ++ String.concat ""
                 (map (fun e =>
                         "- **" ++ fst e ++ "**: " ++ JS.toString (snd e)
                         ++ " packages ("
                         ++ overZero (JS.toNumber (snd e)) ++ "%)" ++ nl)
                    (JS.sort JS.byCountDescending
                       (JS.entries (licenseDistribution report))))) as ->.
  { unfold licenseLines. do 4 f_equal. apply map_ext.
    intros [license count]. unfold licenseLine. now rewrite Hp. }
  now rewrite !append_assoc.
Qed.

Hypothesis localeCompare_antisym :
  forall a b, localeCompare b a = CompOpp (localeCompare a b).

(** C10, as the code has it: [generateReportFile] sorts the array of the
    report it is given in place, by name, and touches no other array:
    afterwards the array holds the same packages in name order, which is
    the order it had before exactly when that was name order already.  The
    table of outdated packages, built before the sort, lists them in the
    order the array had at the call. *)
Theorem generateReportFile_sorts_in_place (report : AnalysisReport)
    (outputPath : string) (h : store) :
  (packages report < List.length h)%nat ->
  let pkgs := read h (packages report) in
  let result := generateReportFile localeCompare now numberToString report
                  outputPath h in
  let pkgs' := read (fst result) (packages report) in
  pkgs' = JS.sort (byName localeCompare) pkgs
  /\ Permutation pkgs pkgs'
  /\ Sorted (mayPrecede (byName localeCompare)) pkgs'
  /\ (pkgs' = pkgs <-> Sorted (mayPrecede (byName localeCompare)) pkgs)
  /\ (forall a, a <> packages report -> read (fst result) a = read h a)
  /\ snd result
     = (outputPath,
        "# Package Dependency Analysis Report" ++ nl ++ nl
        ++ "Generated on: " ++ now ++ nl ++ nl
        ++ summaryLines numberToString report
        ++ licenseLines numberToString report
        ++ maintainerLines report
        ++ outdatedTable (filter isOutdated pkgs)
        ++ packagesTable pkgs').
Proof.
  intros Hvalid pkgs result pkgs'.
  assert (forall x y : PackageAnalysis, True -> True ->
            byName localeCompare y x = CompOpp (byName localeCompare x y))
    as Hanti by (intros x y _ _; apply localeCompare_antisym).
  assert (Forall (fun _ : PackageAnalysis => True) pkgs) as Htrue
    by (apply Forall_forall; auto).
  assert (pkgs' = JS.sort (byName localeCompare) pkgs) as E
    by (unfold pkgs', result; simpl; now rewrite read_write).
  rewrite E. split; [reflexivity|].
  split; [apply sort_permutation|].
  split; [now apply (sort_sorted _ _ Hanti)|].
  split; [now apply (sort_fixed _ _ Hanti)|].
  split.
  - intros a Ha. unfold result. simpl. apply read_write_other. congruence.
  - unfold result, generateReportFile. cbn [snd]. f_equal.
    fold pkgs. now rewrite !append_assoc.
Qed.

(** The array is shared: after a run and its rendering, the analyzer's own
    [_packages] is the array of the report, in name order, and the table of
    outdated packages was built from the entries in manifest order. *)
Lemma analyzer_shares_array (path outputPath : string) (st : Analyzer)
    (packageJson : PackageJson) :
  readJson path = Normal packageJson ->
  exists st' report,
    analyzePackageJson readJson fetch path st = (st', Normal report)
    /\ packages report = _packages st'
    /\ let collected := entriesFrom fetch (_requestCount st)
                          (_extractDependencies packageJson) in
       let result := generateReportFile localeCompare now numberToString
                       report outputPath (heap st') in
       read (heap st') (_packages st') = collected
       /\ read (fst result) (_packages st')
          = JS.sort (byName localeCompare) collected
       /\ snd (snd result)
          = "# Package Dependency Analysis Report" ++ nl ++ nl
            ++ "Generated on: " ++ now ++ nl ++ nl
            ++ summaryLines numberToString report
            ++ licenseLines numberToString report
            ++ maintainerLines report
            ++ outdatedTable (filter isOutdated collected)
            ++ packagesTable (JS.sort (byName localeCompare) collected).
Proof.
  intros Hread.
  destruct (analyzePackageJson_spec readJson fetch path st packageJson Hread)
    as (st' & Hrun & Hvalid & Hpkgs).
  exists st', (_generateReport st'). split; [exact Hrun|].
  split; [reflexivity|]. cbn zeta. split; [exact Hpkgs|].
  unfold generateReportFile. cbn [fst snd packages _generateReport].
  rewrite read_write by exact Hvalid. rewrite Hpkgs.
  split; [reflexivity|]. now rewrite !append_assoc.
Qed.

End Report.

(** The run with a package unknown to the registry: three entries. *)
Lemma totalPackages_counts_entries_witness :
  exists st' report,
    Runs.run Runs.missingManifest Runs.missingRegistry = (st', Normal report)
    /\ totalPackages report = 3%nat
    /\ List.length
         (read (fst (generateReportFile Recorded.ordinal "" (fun _ => "")
                       report "report.md" (heap st')))
            (packages report)) = totalPackages report.
Proof.
  destruct (totalPackages_counts_entries
              (fun _ => Normal Runs.missingManifest) Runs.missingRegistry
              Recorded.ordinal "" (fun _ => "") "./package.json" "report.md"
              (newAnalyzer []) Runs.missingManifest eq_refl)
    as (st' & report & Hrun & Htotal & _ & _ & _ & Hafter).
  exists st', report. split; [exact Hrun|]. split; [exact Htotal|].
  exact Hafter.
Defined.

(** The file of a manifest without dependencies. *)
Lemma percentage_of_nothing_witness :
  snd (generateReportFile Recorded.ordinal "2025-08-27T22:11:47.035Z"
         (fun _ => "") (_generateReport Runs.emptyState)
         "./dependency-analysis-report.md" (heap Runs.emptyState))
  = ("./dependency-analysis-report.md",
     "# Package Dependency Analysis Report" ++ nl ++ nl
     ++ "Generated on: 2025-08-27T22:11:47.035Z" ++ nl ++ nl
     ++ "## Summary" ++ nl ++ nl
     ++ "- **Total Packages**: 0" ++ nl
     ++ "- **Outdated Packages**: 0 (NaN%)" ++ nl ++ nl
     ++ "## License Distribution" ++ nl ++ nl
     ++ nl ++ "## All Packages" ++ nl ++ nl
     ++ "| Package | Version | Latest | License | Author | Outdated |" ++ nl
     ++ "|---------|---------|--------|---------|---------|---------|"
     ++ nl).
Proof.
  destruct (percentage_of_nothing Recorded.ordinal
              "2025-08-27T22:11:47.035Z" (fun _ => "")
              (_generateReport Runs.emptyState)
              "./dependency-analysis-report.md" (heap Runs.emptyState)
              eq_refl) as [_ H].
  rewrite (H eq_refl). reflexivity.
Defined.

(** "zod" then "axios" in the manifest: "axios" then "zod" after the
    rendering. *)
Lemma generateReportFile_sorts_in_place_witness :
  map name
    (read (heap Runs.unsortedState)
       (packages (_generateReport Runs.unsortedState)))
  = ["zod"; "axios"]
  /\ map name
       (read (fst (generateReportFile Recorded.ordinal "" (fun _ => "")
                     (_generateReport Runs.unsortedState) "report.md"
                     (heap Runs.unsortedState)))
          (packages (_generateReport Runs.unsortedState)))
     = ["axios"; "zod"].
Proof.
  split; [reflexivity|].
  assert (packages (_generateReport Runs.unsortedState)
          < List.length (heap Runs.unsortedState))%nat as Hvalid
    by (vm_compute; lia).
  destruct (generateReportFile_sorts_in_place Recorded.ordinal ""
              (fun _ => "")
              (fun a b => String.compare_antisym b a)
              (_generateReport Runs.unsortedState) "report.md"
              (heap Runs.unsortedState) Hvalid)
    as (Hsorted & _).
  rewrite Hsorted. reflexivity.
Defined.

(** C10 fails as stated when the array is in name order already: the
    recorded run lists its four packages alphabetically, and the rendering
    leaves the array as it was; so does the rendering of a single package,
    whatever the collation. *)
Lemma generateReportFile_order_counterexample :
  (exists st report,
     Recorded.run Recorded.manifest = (st, Normal report)
     /\ map name (read (heap st) (packages report))
        = ["@types/node"; "ts-node"; "tsx"; "typescript"]
     /\ read (fst (generateReportFile Recorded.ordinal
                     "2025-08-27T22:11:47.035Z" (fun _ => "") report
                     "./dependency-analysis-report.md" (heap st)))
          (packages report)
        = read (heap st) (packages report))
  /\ (exists st report,
        Runs.run Runs.protoManifest Runs.protoRegistry = (st, Normal report)
        /\ forall localeCompare,
             read (fst (generateReportFile localeCompare "" (fun _ => "")
                          report "report.md" (heap st)))
               (packages report)
             = read (heap st) (packages report)).
Proof.
  split; do 2 eexists; (split; [reflexivity|]).
  - split; reflexivity.
  - intros localeCompare. reflexivity.
Qed.

(** C5 at a package whose license reads [__proto__]: the assignment
    [licenseDistribution[license] = ...] goes to the setter of
    [Object.prototype], which ignores it; the histogram stays empty while
    [totalPackages] is 1. *)
Theorem licenseDistribution_inherited_key :
  exists st report,
    Runs.run Runs.protoManifest Runs.protoRegistry = (st, Normal report)
    /\ map license (read (heap st) (packages report)) = ["__proto__"]
    /\ totalPackages report = 1%nat
    /\ licenseDistribution report = []
    /\ total (licenseDistribution report) = 0%nat.
Proof. do 2 eexists. repeat split; reflexivity. Qed.

(** C6 fails as stated on ties: "Zoe" is met before "42", both have one
    package, and "42" comes first, because [Object.entries] lists the keys
    that are array indices before the others. *)
Lemma topMaintainers_tie_counterexample :
  exists st report,
    Runs.run Runs.tieManifest Runs.tieRegistry = (st, Normal report)
    /\ map author (read (heap st) (packages report)) = ["Zoe"; "42"]
    /\ topMaintainers report = [("42", JS.VNum 1); ("Zoe", JS.VNum 1)].
Proof. do 2 eexists. repeat split; reflexivity. Qed.

(** The two authors of the tie: one package each, "42" first. *)
Lemma topMaintainers_spec_witness :
  topMaintainers (_generateReport Runs.tieState)
  = firstn 10
      (JS.sort JS.byCountDescending (JS.entries (tally ["Zoe"; "42"])))
  /\ StronglySorted (fun x y => (countOf y <= countOf x)%nat)
       (topMaintainers (_generateReport Runs.tieState)).
Proof.
  destruct (topMaintainers_spec Runs.tieState) as (_ & _ & H).
  destruct H as (Htop & _ & Hsorted & _).
  - repeat constructor.
  - vm_compute. reflexivity.
  - split; [exact Htop|exact Hsorted].
Defined.

(** ** The recorded run *)

(** The two runs recorded in the repository render, character for
    character, as the reports kept there. *)
Example recorded_report :
  Recorded.rendered Recorded.manifest "2025-08-27T22:11:47.035Z"
  = Recorded.expected.
Proof. vm_compute. reflexivity. Qed.

Example earlier_recorded_report :
  Recorded.rendered Recorded.earlierManifest "2025-08-27T15:31:50.231Z"
  = Recorded.earlierExpected.
Proof. vm_compute. reflexivity. Qed.

(** The earlier run: three packages, all three outdated. *)
Example earlier_recorded_totals :
  match snd (Recorded.run Recorded.earlierManifest) with
  | Normal report => (totalPackages report, outdatedPackages report)
  | Throw _ => (0, 0)%nat
  end = (3, 3)%nat.
Proof. vm_compute. reflexivity. Qed.

(** Three development dependencies, all behind: three of three outdated. *)
Example three_outdated :
  map (fun p => Comparator.isOutdated (fst p) (snd p))
    [("^20.0.0", "24.3.0"); ("^4.0.0", "4.20.5"); ("^5.0.0", "5.9.2")]
  = [true; true; true].
Proof. vm_compute. reflexivity. Qed.

(** * Further properties *)

(** ** The comparator as an order *)

Lemma same_trans (x y z : JS.number) :
  JS.same x y -> JS.same y z -> JS.same x z.
Proof.
  destruct x as [|[|]|a], y as [|[|]|b], z as [|[|]|c]; simpl;
    try tauto; try congruence.
  intros H1 H2. now rewrite H1.
Qed.

Lemma lt_same_l (x x' y : JS.number) :
  JS.same x x' -> JS.lt x y = JS.lt x' y.
Proof.
  destruct x as [|[|]|a], x' as [|[|]|a'], y as [|[|]|b]; simpl;
    try tauto; try congruence.
  intros H. now rewrite H.
Qed.

Lemma lt_same_r (x y y' : JS.number) :
  JS.same y y' -> JS.lt x y = JS.lt x y'.
Proof.
  destruct x as [|[|]|a], y as [|[|]|b], y' as [|[|]|b']; simpl;
    try tauto; try congruence.
  intros H. now rewrite H.
Qed.

Lemma lt_trans (x y z : JS.number) :
  JS.lt x y = true -> JS.lt y z = true -> JS.lt x z = true.
Proof.
  destruct x as [|[|]|a], y as [|[|]|b], z as [|[|]|c]; simpl;
    try congruence.
  rewrite !negb_true_iff. intros H1 H2.
  destruct (Qle_bool c a) eqn:E; [|reflexivity].
  apply Qle_bool_iff in E.
  assert (a < b)%Q as Hab.
  { apply Qnot_le_lt. intros H. apply Qle_bool_iff in H. congruence. }
  assert (b < c)%Q as Hbc.
  { apply Qnot_le_lt. intros H. apply Qle_bool_iff in H. congruence. }
  exfalso. apply (Qlt_irrefl a).
  eapply Qlt_le_trans; [|exact E]. eapply Qlt_trans; eassumption.
Qed.

Lemma partsOutdated_true (a b : list JS.number) :
  partsOutdated a b = true <->
  exists k, (forall j, (j < k)%nat -> JS.same (JS.at_or0 a j) (JS.at_or0 b j))
            /\ JS.lt (JS.at_or0 a k) (JS.at_or0 b k) = true.
Proof.
  unfold partsOutdated. rewrite compare_whole. split.
  - intros (k & Hd & Hlt). exists k. rewrite firstDifference_0 in Hd. auto.
  - intros (k & Hd & Hlt). exists k. rewrite firstDifference_0. auto.
Qed.

Lemma partsOutdated_asym (a b : list JS.number) :
  partsOutdated a b = true -> partsOutdated b a = false.
Proof.
  intros Hab. apply not_true_is_false. intros Hba.
  apply partsOutdated_true in Hab, Hba.
  destruct Hab as (k & Hk & Hlt), Hba as (k' & Hk' & Hlt').
  destruct (Nat.lt_trichotomy k k') as [H|[->|H]].
  - apply Hk', same_sym, same_not_lt in H. congruence.
  - apply lt_asym in Hlt. congruence.
  - apply Hk, same_sym, same_not_lt in H. congruence.
Qed.

Lemma partsOutdated_trans (a b c : list JS.number) :
  partsOutdated a b = true -> partsOutdated b c = true ->
  partsOutdated a c = true.
Proof.
  intros Hab Hbc. apply partsOutdated_true in Hab, Hbc.
  apply partsOutdated_true.
  destruct Hab as (k & Hk & Hlt), Hbc as (k' & Hk' & Hlt').
  destruct (Nat.lt_trichotomy k k') as [H|[->|H]].
  - exists k. split.
    + intros j Hj. eapply same_trans; [apply Hk; lia|apply Hk'; lia].
    + rewrite <- (lt_same_r _ _ _ (Hk' k H)). exact Hlt.
  - exists k'. split.
    + intros j Hj. eapply same_trans; [apply Hk; lia|apply Hk'; lia].
    + eapply lt_trans; eassumption.
  - exists k'. split.
    + intros j Hj. eapply same_trans; [apply Hk; lia|apply Hk'; lia].
    + rewrite (lt_same_l _ _ _ (Hk k' H)). exact Hlt'.
Qed.

(** Arrays that read the same get the same verdicts. *)
Lemma partsOutdated_same (a a' b b' : list JS.number) :
  (forall i, JS.same (JS.at_or0 a i) (JS.at_or0 a' i)) ->
  (forall i, JS.same (JS.at_or0 b i) (JS.at_or0 b' i)) ->
  partsOutdated a b = partsOutdated a' b'.
Proof.
  assert (forall a a' b b',
            (forall i, JS.same (JS.at_or0 a i) (JS.at_or0 a' i)) ->
            (forall i, JS.same (JS.at_or0 b i) (JS.at_or0 b' i)) ->
            partsOutdated a b = true -> partsOutdated a' b' = true) as H.
  { clear. intros a a' b b' Ha Hb Hab. apply partsOutdated_true in Hab.
    apply partsOutdated_true. destruct Hab as (k & Hk & Hlt).
    exists k. split.
    - intros j Hj. eapply same_trans; [apply same_sym, Ha|].
      eapply same_trans; [apply Hk, Hj|apply Hb].
    - rewrite <- (lt_same_l _ _ _ (Ha k)), <- (lt_same_r _ _ _ (Hb k)).
      exact Hlt. }
  intros Ha Hb.
  destruct (partsOutdated a b) eqn:E.
  - symmetry. eapply H; eassumption.
  - symmetry. apply not_true_is_false. intros E'.
    rewrite (H a' a b' b) in E; auto; try discriminate;
      intros i; apply same_sym; auto.
Qed.

(** When neither array is outdated against the other, they read the
    same. *)
Lemma partsOutdated_neither (a b : list JS.number) :
  partsOutdated a b = false -> partsOutdated b a = false ->
  forall i, JS.same (JS.at_or0 a i) (JS.at_or0 b i).
Proof.
  intros Hab Hba i. induction i as [i IH] using lt_wf_ind.
  apply not_lt_same; try apply at_or0_not_NaN.
  - destruct (JS.lt (JS.at_or0 a i) (JS.at_or0 b i)) eqn:E; [|reflexivity].
    assert (partsOutdated a b = true) as H; [|congruence].
    apply partsOutdated_true. exists i. auto.
  - destruct (JS.lt (JS.at_or0 b i) (JS.at_or0 a i)) eqn:E; [|reflexivity].
    assert (partsOutdated b a = true) as H; [|congruence].
    apply partsOutdated_true. exists i. split; [|exact E].
    intros j Hj. apply same_sym. auto.
Qed.

Lemma _isVersionOutdated_parts (installed latest : string) :
  _isVersionOutdated installed latest
  = partsOutdated (versionParts installed) (versionParts latest).
Proof. reflexivity. Qed.

(** X1: a version that is outdated against another is not ahead of it. *)
Theorem versionOutdated_asymmetric (a b : string) :
  _isVersionOutdated a b = true -> _isVersionOutdated b a = false.
Proof. rewrite !_isVersionOutdated_parts. apply partsOutdated_asym. Qed.

Lemma versionOutdated_asymmetric_witness :
  _isVersionOutdated "1.10.0" "1.2.3" = false.
Proof.
  apply (versionOutdated_asymmetric "1.2.3" "1.10.0"). reflexivity.
Defined.

(** X2: the verdicts chain: a version outdated against a second one that is
    outdated against a third is outdated against the third. *)
Theorem versionOutdated_transitive (a b c : string) :
  _isVersionOutdated a b = true -> _isVersionOutdated b c = true ->
  _isVersionOutdated a c = true.
Proof. rewrite !_isVersionOutdated_parts. apply partsOutdated_trans. Qed.

Lemma versionOutdated_transitive_witness :
  _isVersionOutdated "1.9" "2.0.1" = true.
Proof.
  apply (versionOutdated_transitive "1.9" "1.10.0" "2.0.1"); reflexivity.
Defined.

(** X3: two versions of which neither is outdated against the other get the
    same verdict against every third version, on either side. *)
Theorem versionOutdated_interchangeable (a b : string) :
  _isVersionOutdated a b = false -> _isVersionOutdated b a = false ->
  forall c, _isVersionOutdated a c = _isVersionOutdated b c
            /\ _isVersionOutdated c a = _isVersionOutdated c b.
Proof.
  rewrite !_isVersionOutdated_parts. intros Hab Hba c.
  pose proof (partsOutdated_neither _ _ Hab Hba) as Hsame.
  rewrite !_isVersionOutdated_parts.
  split; apply partsOutdated_same; auto;
    intros i; apply same_refl, at_or0_not_NaN.
Qed.

Lemma versionOutdated_interchangeable_witness :
  _isVersionOutdated "1.0" "1.0.1" = _isVersionOutdated "1.0.0" "1.0.1"
  /\ _isVersionOutdated "1.0.1" "1.0" = _isVersionOutdated "1.0.1" "1.0.0".
Proof.
  apply (versionOutdated_interchangeable "1.0" "1.0.0"); reflexivity.
Defined.

(** ** Trailing zero components *)

Lemma split_append_dot (a b : string) :
  JS.split "." (a ++ String "." b) = (JS.split "." a ++ JS.split "." b)%list.
Proof.
  induction a as [|c a IH]; [reflexivity|].
  cbn [append JS.split]. rewrite IH.
  destruct (Ascii.eqb c "."); [reflexivity|].
  destruct (JS.split "." a) as [|p ps] eqn:E; [|reflexivity].
  now apply split_not_nil in E.
Qed.

Lemma at_or0_app_zero (l : list JS.number) (i : nat) :
  JS.at_or0 (l ++ [JS.zero]) i = JS.at_or0 l i.
Proof.
  unfold JS.at_or0.
  destruct (Nat.lt_ge_cases i (List.length l)) as [H|H].
  - now rewrite nth_error_app1.
  - rewrite nth_error_app2 by exact H.
    apply nth_error_None in H. rewrite H.
    destruct (i - List.length l)%nat as [|[|n]]; reflexivity.
Qed.

Lemma versionParts_trailing_zero (s : string) :
  versionParts (s ++ ".0") = (versionParts s ++ [JS.zero])%list.
Proof.
  unfold versionParts. rewrite split_append_dot, map_app. reflexivity.
Qed.

(** X4: a trailing [.0] on either side changes no verdict. *)
Theorem versionOutdated_trailing_zero (a b : string) :
  _isVersionOutdated (a ++ ".0") b = _isVersionOutdated a b
  /\ _isVersionOutdated a (b ++ ".0") = _isVersionOutdated a b.
Proof.
  rewrite !_isVersionOutdated_parts, !versionParts_trailing_zero.
  split; apply partsOutdated_same; intros i;
    rewrite ?at_or0_app_zero; apply same_refl, at_or0_not_NaN.
Qed.

(** ** Dotted decimal versions *)

Lemma or0_ofZ (z : Z) : JS.or0 (ofZ z) = ofZ z.
Proof.
  unfold JS.or0, ofZ, JS.toBoolean, Qeq_bool. simpl.
  rewrite Z.mul_1_r. destruct (Z.eqb_spec z 0) as [->|]; reflexivity.
Qed.

Lemma lt_ofZ (x y : Z) : JS.lt (ofZ x) (ofZ y) = (x <? y)%Z.
Proof.
  unfold ofZ, JS.lt, Qle_bool. simpl. rewrite !Z.mul_1_r.
  rewrite Z.ltb_antisym. reflexivity.
Qed.

Lemma at_or0_cons (x : JS.number) (l : list JS.number) (i : nat) :
  JS.at_or0 (x :: l) (S i) = JS.at_or0 l i.
Proof. reflexivity. Qed.

Lemma compareFrom_shift (x y : JS.number) (a b : list JS.number) (n i : nat) :
  compareFrom (x :: a) (y :: b) (S i) n = compareFrom a b i n.
Proof.
  revert i. induction n as [|n IH]; intros i; [reflexivity|].
  cbn [compareFrom]. now rewrite !at_or0_cons, IH.
Qed.

Lemma compareFrom_shift_l (x : JS.number) (a : list JS.number) (n i : nat) :
  compareFrom (x :: a) [] (S i) n = compareFrom a [] i n.
Proof.
  revert i. induction n as [|n IH]; intros i; [reflexivity|].
  cbn [compareFrom]. rewrite at_or0_cons, IH.
  unfold JS.at_or0. rewrite !nth_error_nil. reflexivity.
Qed.

Lemma compareFrom_shift_r (y : JS.number) (b : list JS.number) (n i : nat) :
  compareFrom [] (y :: b) (S i) n = compareFrom [] b i n.
Proof.
  revert i. induction n as [|n IH]; intros i; [reflexivity|].
  cbn [compareFrom]. rewrite at_or0_cons, IH.
  unfold JS.at_or0. rewrite !nth_error_nil. reflexivity.
Qed.

Lemma compareFrom_zeros_r (b : list Z) :
  compareFrom [] (map ofZ b) 0 (List.length b) = aboveZeros b.
Proof.
  induction b as [|y b IHb]; [reflexivity|].
  cbn [List.length map compareFrom aboveZeros]. unfold JS.gt.
  unfold JS.at_or0 at 1 2 3 4. cbn [nth_error].
  rewrite or0_ofZ. change JS.zero with (ofZ 0). rewrite !lt_ofZ.
  destruct (0 <? y)%Z; [reflexivity|].
  destruct (y <? 0)%Z; [reflexivity|].
  rewrite compareFrom_shift_r. exact IHb.
Qed.

Lemma compareFrom_zeros_l (a : list Z) :
  compareFrom (map ofZ a) [] 0 (List.length a) = belowZeros a.
Proof.
  induction a as [|x a IHa]; [reflexivity|].
  cbn [List.length map compareFrom belowZeros]. unfold JS.gt.
  unfold JS.at_or0 at 1 2 3 4. cbn [nth_error].
  rewrite or0_ofZ. change JS.zero with (ofZ 0). rewrite !lt_ofZ.
  destruct (x <? 0)%Z; [reflexivity|].
  destruct (0 <? x)%Z; [reflexivity|].
  rewrite compareFrom_shift_l. exact IHa.
Qed.

Lemma partsOutdated_ofZ (a b : list Z) :
  partsOutdated (map ofZ a) (map ofZ b) = lexLess a b.
Proof.
  unfold partsOutdated. rewrite !length_map.
  revert b. induction a as [|x a IH]; intros b.
  - apply compareFrom_zeros_r.
  - destruct b as [|y b].
    + cbn [List.length lexLess map]. rewrite Nat.max_0_r.
      apply (compareFrom_zeros_l (x :: a)).
    + cbn [map List.length]. rewrite <- Nat.succ_max_distr.
      cbn [compareFrom lexLess]. unfold JS.gt.
      unfold JS.at_or0 at 1 2 3 4. cbn [nth_error].
      rewrite !or0_ofZ, !lt_ofZ.
      destruct (x <? y)%Z; [reflexivity|].
      destruct (y <? x)%Z; [reflexivity|].
      rewrite compareFrom_shift. apply IH.
Qed.

Lemma versionParts_decimal (s : string) :
  isDottedDecimal s = true ->
  versionParts s = map ofZ (integerParts s).
Proof.
  unfold isDottedDecimal, versionParts, integerParts. rewrite map_map.
  intros H. apply map_ext_in. intros p Hp.
  rewrite forallb_forall in H. specialize (H p Hp).
  unfold isDecimalComponent in H.
  apply andb_true_iff in H. destruct H as [H Hlt].
  apply andb_true_iff in H. destruct H as [Hne Hd].
  apply Number_decimal; [|exact Hd|now apply Z.ltb_lt].
  intros ->. discriminate.
Qed.

(** ** The comparator on integers *)

(** C1, as the code has it: for every pair of version strings,
    [isOutdated] cleans the installed string, splits both on the dot and
    reads component [i] of each as the number [Number(part) || 0]; it
    returns true when the first position where these numbers differ has
    the installed one smaller, false when it has the installed one greater,
    and false when they are all equal.  A missing trailing component reads
    0, and a component of decimal digits that denotes an integer below 2^53
    reads as that integer, so that on versions made of such components the
    verdict is the lexicographic comparison of the integers.  Beyond 2^53
    the numbers are the integers rounded to binary64, and it is the rounded
    values that are compared. *)
Theorem isOutdated_first_difference (installed latest : string) :
  let a := Comparator.component (_cleanVersion installed) in
  let b := Comparator.component latest in
  (forall i, (forall j, (j < i)%nat -> JS.same (a j) (b j)) ->
             JS.lt (a i) (b i) = true ->
             Comparator.isOutdated installed latest = true) /\
  (forall i, (forall j, (j < i)%nat -> JS.same (a j) (b j)) ->
             JS.gt (a i) (b i) = true ->
             Comparator.isOutdated installed latest = false) /\
  ((forall i, JS.same (a i) (b i)) ->
   Comparator.isOutdated installed latest = false) /\
  (forall s i, (List.length (JS.split "." s) <= i)%nat ->
               Comparator.component s i = JS.zero) /\
  (forall s i p, nth_error (JS.split "." s) i = Some p ->
                 isDecimalComponent p = true ->
                 Comparator.component s i = ofZ (decimalValue p)) /\
  (forall x y, JS.lt (ofZ x) (ofZ y) = (x <? y)%Z
               /\ JS.gt (ofZ x) (ofZ y) = (y <? x)%Z
               /\ (JS.same (ofZ x) (ofZ y) <-> x = y)) /\
  (isDottedDecimal (_cleanVersion installed) = true ->
   isDottedDecimal latest = true ->
   Comparator.isOutdated installed latest
   = lexLess (integerParts (_cleanVersion installed)) (integerParts latest)).
Proof.
  intros a b. unfold Comparator.isOutdated. split; [|split; [|split]].
  - intros i Hsame Hlt. apply _isVersionOutdated_true.
    exists i. split; [|exact Hlt]. apply firstDifference_0. exact Hsame.
  - intros i Hsame Hgt. apply not_true_is_false. intros Hout.
    apply _isVersionOutdated_true in Hout.
    destruct Hout as (k & Hd & Hlt). rewrite firstDifference_0 in Hd.
    fold a b in Hlt. unfold JS.gt in Hgt.
    destruct (Nat.lt_trichotomy k i) as [Hk|[->|Hk]].
    + apply Hsame, same_not_lt in Hk. congruence.
    + apply lt_asym in Hlt. congruence.
    + apply Hd, same_sym, same_not_lt in Hk.
      unfold a, b, Comparator.component in Hgt. congruence.
  - intros Hsame. apply not_true_is_false. intros Hout.
    apply _isVersionOutdated_true in Hout.
    destruct Hout as (k & _ & Hlt).
    specialize (Hsame k). apply same_not_lt in Hsame.
    unfold a, b in Hsame. congruence.
  - split; [|split; [|split]].
    + intros s i H. apply at_or0_past.
      unfold versionParts. now rewrite length_map.
    + intros s i p Hp Hdec.
      unfold Comparator.component, versionParts, JS.at_or0.
      rewrite (map_nth_error JS.Number _ _ Hp).
      unfold isDecimalComponent in Hdec.
      apply andb_true_iff in Hdec. destruct Hdec as [Hdec Hlt].
      apply andb_true_iff in Hdec. destruct Hdec as [Hne Hd].
      rewrite Number_decimal;
        [apply or0_ofZ| |exact Hd|now apply Z.ltb_lt].
      intros ->. discriminate.
    + intros x y. split; [apply lt_ofZ|]. split; [apply lt_ofZ|].
      unfold ofZ. cbn [JS.same]. apply inject_Z_injective.
    + intros Hi Hl. rewrite _isVersionOutdated_parts.
      rewrite (versionParts_decimal _ Hi), (versionParts_decimal _ Hl).
      apply partsOutdated_ofZ.
Qed.

(** "1.9.0" against "1.10.0": the first components agree and 9 < 10. *)
Lemma isOutdated_first_difference_witness :
  Comparator.isOutdated "1.9.0" "1.10.0" = true.
Proof.
  apply (proj1 (isOutdated_first_difference "1.9.0" "1.10.0"))
    with (i := 1%nat).
  - intros j Hj. assert (j = 0%nat) as -> by lia. vm_compute. reflexivity.
  - vm_compute. reflexivity.
Defined.

(** C1 fails as stated beyond 2^53: 9007199254740993 is not a binary64
    value and reads as 9007199254740992, so a version that is smaller as an
    integer is not outdated. *)
Lemma isOutdated_large_integer_counterexample :
  ~ (forall installed latest,
       allDecimalDigits installed = true ->
       allDecimalDigits latest = true ->
       (decimalValue installed < decimalValue latest)%Z ->
       Comparator.isOutdated installed latest = true).
Proof.
  intros H.
  specialize (H "9007199254740992" "9007199254740993" eq_refl eq_refl).
  assert (Comparator.isOutdated "9007199254740992" "9007199254740993"
          = false) as E by (vm_compute; reflexivity).
  rewrite H in E; [discriminate|]. vm_compute. reflexivity.
Qed.

(** X5: on dotted decimal versions the verdict is the lexicographic
    comparison of the integers, the shorter version padded with zeros. *)
Theorem versionOutdated_lexicographic (installed latest : string) :
  isDottedDecimal installed = true -> isDottedDecimal latest = true ->
  _isVersionOutdated installed latest
  = lexLess (integerParts installed) (integerParts latest).
Proof.
  intros Hi Hl. rewrite _isVersionOutdated_parts.
  rewrite (versionParts_decimal _ Hi), (versionParts_decimal _ Hl).
  apply partsOutdated_ofZ.
Qed.

Lemma versionOutdated_lexicographic_witness :
  _isVersionOutdated "1.9.0" "1.10" = lexLess [1; 9; 0]%Z [1; 10]%Z.
Proof.
  apply (versionOutdated_lexicographic "1.9.0" "1.10"); reflexivity.
Defined.

(** ** Ranges written with two operator characters *)





(** ** The manifest *)

Lemma entriesOfType_group (t u : DependencyType) (es : list (string * string)) :
  entriesOfType t
    (map (fun e => {| dep_name := fst e; dep_version := snd e;
                      dep_type := u |}) es)
  = if sameType u t then es else [].
Proof.
  unfold entriesOfType. induction es as [|[n v] es IH]; simpl.
  - now destruct (sameType u t).
  - destruct (sameType u t); simpl in *; now rewrite IH.
Qed.

Lemma entriesOfType_app (t : DependencyType) (l l' : list Dep) :
  entriesOfType t (l ++ l') = (entriesOfType t l ++ entriesOfType t l')%list.
Proof. unfold entriesOfType. now rewrite filter_app, map_app. Qed.

Lemma _extractDependencies_eq (packageJson : PackageJson) :
  _extractDependencies packageJson
  = (map (fun e => {| dep_name := fst e; dep_version := snd e;
                      dep_type := dependency |})
       (tableEntries (dependencies packageJson))
     ++ map (fun e => {| dep_name := fst e; dep_version := snd e;
                         dep_type := devDependency |})
          (tableEntries (devDependencies packageJson))
     ++ map (fun e => {| dep_name := fst e; dep_version := snd e;
                         dep_type := peerDependency |})
          (tableEntries (peerDependencies packageJson)))%list.
Proof.
  unfold _extractDependencies.
  now destruct (dependencies packageJson), (devDependencies packageJson),
    (peerDependencies packageJson).
Qed.

(** X7: the declarations keep every entry of the three tables, a missing
    table giving none: taking them back by type returns each table as it
    was, and the types come in the order runtime, development, peer. *)
Theorem extractDependencies_tables (packageJson : PackageJson) :
  let allDeps := _extractDependencies packageJson in
  let runtime := tableEntries (dependencies packageJson) in
  let dev := tableEntries (devDependencies packageJson) in
  let peer := tableEntries (peerDependencies packageJson) in
  entriesOfType dependency allDeps = runtime
  /\ entriesOfType devDependency allDeps = dev
  /\ entriesOfType peerDependency allDeps = peer
  /\ map dep_type allDeps
     = (repeat dependency (List.length runtime)
        ++ repeat devDependency (List.length dev)
        ++ repeat peerDependency (List.length peer))%list.
Proof.
  cbn zeta. rewrite _extractDependencies_eq.
  rewrite !entriesOfType_app, !entriesOfType_group. cbn [sameType].
  rewrite !app_nil_r. repeat split; try reflexivity.
  rewrite !map_app, !map_map. cbn [dep_type].
  repeat f_equal;
    match goal with
    | |- map _ ?l = _ => induction l; simpl; congruence
    end.
Qed.

(** ** What a run collects *)

Section Collected.

Variable fetch : nat -> string -> Response.

Lemma entryAt_answered (request : nat) (dep : Dep) :
  entryAt fetch request dep
  = match answered fetch request dep with
    | Some data => analysisOf dep data
    | None => failedEntry dep
    end.
Proof.
  unfold entryAt, answered, _fetchPackageInfo.
  now destruct (fetch request _).
Qed.

Lemma outdated_entriesFrom (deps : list Dep) (request : nat) :
  List.length (filter isOutdated (entriesFrom fetch request deps))
  = behindFrom fetch request deps
  /\ (behindFrom fetch request deps
      + (List.length deps
         - List.length (answeredFrom fetch request deps))
      <= List.length deps)%nat
  /\ (List.length (answeredFrom fetch request deps) <= List.length deps)%nat.
Proof.
  revert request. induction deps as [|dep deps IH]; intros r;
    [simpl; lia|].
  destruct (IH (S r)) as (IH1 & IH2 & IH3).
  cbn [entriesFrom behindFrom answeredFrom filter List.length].
  rewrite entryAt_answered.
  destruct (answered fetch (S r) dep) as [data|].
  - change (isOutdated (analysisOf dep data))
      with (Comparator.isOutdated (dep_version dep) (info_version data)).
    destruct (Comparator.isOutdated _ _); cbn [List.length];
      rewrite ?IH1; repeat split; lia.
  - cbn [isOutdated failedEntry]. rewrite IH1. repeat split; lia.
Qed.

End Collected.

Section Outcome.

Variable readJson : string -> completion PackageJson.
Variable fetch : nat -> string -> Response.

(** X8: the report counts as outdated exactly the declarations that the
    registry answers with a version they are behind; a declaration whose
    fetch fails is never outdated, so outdated and failed together stay
    within [totalPackages]. *)
Theorem outdatedPackages_counts_behind (path : string) (st : Analyzer)
    (packageJson : PackageJson) :
  readJson path = Normal packageJson ->
  exists st' report,
    analyzePackageJson readJson fetch path st = (st', Normal report)
    /\ let allDeps := _extractDependencies packageJson in
       let failed := (List.length allDeps
                      - List.length
                          (answeredFrom fetch (_requestCount st) allDeps))%nat
       in
       outdatedPackages report = behindFrom fetch (_requestCount st) allDeps
       /\ (outdatedPackages report + failed <= totalPackages report)%nat.
Proof.
  intros Hread.
  destruct (analyzePackageJson_spec readJson fetch path st packageJson Hread)
    as (st' & Hrun & _ & Hpkgs).
  exists st', (_generateReport st'). split; [exact Hrun|].
  cbn [outdatedPackages totalPackages _generateReport]. rewrite Hpkgs.
  destruct (outdated_entriesFrom fetch (_extractDependencies packageJson)
              (_requestCount st)) as (H1 & H2 & _).
  rewrite length_entriesFrom, H1. auto.
Qed.

End Outcome.

Lemma outdatedPackages_counts_behind_witness :
  exists st' report,
    Runs.run Runs.missingManifest Runs.missingRegistry = (st', Normal report)
    /\ outdatedPackages report = 2%nat
    /\ (outdatedPackages report + 1 <= totalPackages report)%nat.
Proof.
  destruct (outdatedPackages_counts_behind
              (fun _ => Normal Runs.missingManifest) Runs.missingRegistry
              "./package.json" (newAnalyzer []) Runs.missingManifest eq_refl)
    as (st' & report & Hrun & Hout & Hle).
  exists st', report. split; [exact Hrun|]. split; [exact Hout|exact Hle].
Defined.

(** ** Pauses *)

Section Pauses.

Variable readJson : string -> completion PackageJson.
Variable fetch : nat -> string -> Response.

Lemma analyzeDep_pauses (st : Analyzer) (dep : Dep) :
  let st' := analyzeDep fetch st dep in
  let request := S (_requestCount st) in
  _requestCount st' = request
  /\ pausesOf 100 st'
     = (pausesOf 100 st
        + match answered fetch request dep with Some _ => 1 | None => 0 end)%nat
  /\ pausesOf 60000 st'
     = (pausesOf 60000 st
        + match answered fetch request dep with
          | Some _ => if atLimit request then 1 else 0
          | None => 0
          end)%nat.
Proof.
  unfold analyzeDep, _analyzePackage, answered, _fetchPackageInfo, atLimit,
    pausesOf.
  cbn [_requestCount].
  destruct (fetch (S (_requestCount st)) _) as [e|s t|data];
    cbn [push _sleep slept _requestCount];
    try (repeat split; lia).
  destruct (_ =? 0)%nat;
    cbn [push _sleep slept _requestCount count_occ];
    repeat split;
    repeat match goal with
           | |- context [N.eq_dec ?a ?b] =>
               destruct (N.eq_dec a b); try discriminate; try congruence
           end; lia.
Qed.

Lemma loop_pauses (deps : list Dep) (st : Analyzer) :
  let st' := fold_left (analyzeDep fetch) deps st in
  let answeredAt := answeredFrom fetch (_requestCount st) deps in
  pausesOf 100 st' = (pausesOf 100 st + List.length answeredAt)%nat
  /\ pausesOf 60000 st'
     = (pausesOf 60000 st + List.length (filter atLimit answeredAt))%nat.
Proof.
  revert st. induction deps as [|dep deps IH]; intros st;
    [cbn; lia|].
  cbn [fold_left answeredFrom].
  destruct (analyzeDep_pauses st dep) as (Hr & H1 & H2).
  specialize (IH (analyzeDep fetch st dep)). cbn zeta in IH.
  rewrite Hr in IH. destruct IH as (IH1 & IH2).
  cbn zeta. rewrite IH1, IH2, H1, H2.
  destruct (answered fetch (S (_requestCount st)) dep);
    cbn [filter List.length]; [|lia].
  destruct (atLimit (S (_requestCount st))); cbn [List.length]; lia.
Qed.

Lemma run_pauses_spec (path : string) (st : Analyzer)
    (packageJson : PackageJson) :
  readJson path = Normal packageJson ->
  exists st' report,
    analyzePackageJson readJson fetch path st = (st', Normal report)
    /\ let allDeps := _extractDependencies packageJson in
       let answeredAt := answeredFrom fetch (_requestCount st) allDeps in
       _requestCount st' = (_requestCount st + List.length allDeps)%nat
       /\ pausesOf 100 st' = (pausesOf 100 st + List.length answeredAt)%nat
       /\ pausesOf 60000 st'
          = (pausesOf 60000 st + List.length (filter atLimit answeredAt))%nat.
Proof.
  intros Hread. unfold analyzePackageJson, _readPackageJson. rewrite Hread.
  destruct (read_alloc (heap st)) as [_ Hvalid].
  destruct (alloc (heap st)) as [h a]. simpl in Hvalid.
  set (st0 := {| heap := h; _packages := a;
                 _requestCount := _requestCount st; slept := slept st |}).
  do 2 eexists. split; [reflexivity|].
  destruct (loop_spec fetch (_extractDependencies packageJson) st0 Hvalid)
    as (_ & _ & Hr & _).
  destruct (loop_pauses (_extractDependencies packageJson) st0) as (H1 & H2).
  cbn zeta. rewrite Hr, H1, H2. auto.
Qed.

(** X10: a run makes one request per declaration and pauses only after the
    requests that are answered: 100 ms after each of them, and 60 s more
    after those whose number is a multiple of 50.  A request that fails
    counts but earns no pause, even at a multiple of 50. *)
Theorem run_pauses (path : string) (st : Analyzer)
    (packageJson : PackageJson) :
  readJson path = Normal packageJson ->
  exists st' report,
    analyzePackageJson readJson fetch path st = (st', Normal report)
    /\ let allDeps := _extractDependencies packageJson in
       let answeredAt := answeredFrom fetch (_requestCount st) allDeps in
       _requestCount st' = (_requestCount st + List.length allDeps)%nat
       /\ pausesOf 100 st' = (pausesOf 100 st + List.length answeredAt)%nat
       /\ pausesOf 60000 st'
          = (pausesOf 60000 st + List.length (filter atLimit answeredAt))%nat.
Proof. apply run_pauses_spec. Qed.

End Pauses.

Lemma run_pauses_witness :
  exists st' report,
    Runs.run Runs.missingManifest Runs.missingRegistry = (st', Normal report)
    /\ _requestCount st' = 3%nat /\ pausesOf 100 st' = 2%nat
    /\ pausesOf 60000 st' = 0%nat.
Proof.
  destruct (run_pauses (fun _ => Normal Runs.missingManifest)
              Runs.missingRegistry "./package.json" (newAnalyzer [])
              Runs.missingManifest eq_refl)
    as (st' & report & Hrun & Hr & H1 & H2).
  exists st', report. split; [exact Hrun|]. split; [exact Hr|].
  split; [exact H1|exact H2].
Defined.

(** When every request is answered the answered requests are all of
    them. *)
Lemma answeredFrom_all (fetch : nat -> string -> Response) (deps : list Dep)
    (request : nat) :
  (forall r u, exists data, fetch r u = Ok data) ->
  answeredFrom fetch request deps = seq (S request) (List.length deps).
Proof.
  intros Hall. revert request.
  induction deps as [|dep deps IH]; intros r; [reflexivity|].
  cbn [answeredFrom List.length seq]. unfold answered.
  destruct (Hall (S r) (_npmRegistryUrl ++ "/" ++ dep_name dep ++ "/latest"))
    as [data ->].
  now rewrite IH.
Qed.

Lemma div_succ (n : nat) :
  (S n / 50 = n / 50 + if (S n mod 50 =? 0) then 1 else 0)%nat.
Proof.
  pose proof (Nat.div_mod_eq n 50) as Hn.
  pose proof (Nat.mod_upper_bound n 50) as Hm.
  pose proof (Nat.div_mod_eq (S n) 50) as Hn'.
  pose proof (Nat.mod_upper_bound (S n) 50) as Hm'.
  destruct (Nat.eqb_spec (S n mod 50) 0); lia.
Qed.

Lemma limits_in_seq (n request : nat) :
  List.length (filter atLimit (seq (S request) n))
  = ((request + n) / 50 - request / 50)%nat.
Proof.
  revert request. induction n as [|n IH]; intros r.
  - rewrite Nat.add_0_r. cbn. lia.
  - cbn [seq filter]. rewrite <- Nat.add_succ_comm.
    pose proof (div_succ r) as Hr.
    assert (S r / 50 <= (S r + n) / 50)%nat as Hle
      by (apply Nat.Div0.div_le_mono; lia).
    unfold atLimit at 1. change _maxRequestsPerMinute with 50%nat.
    destruct (S r mod 50 =? 0)%nat; cbn [List.length]; rewrite IH; lia.
Qed.

(** X11: when the registry answers every request, a run of [n] declarations
    that starts after [r] requests takes [n] short pauses and as many long
    ones as there are multiples of 50 from [r] + 1 to [r] + [n]. *)
Theorem run_pauses_all_answered (readJson : string -> completion PackageJson)
    (fetch : nat -> string -> Response) (path : string) (st : Analyzer)
    (packageJson : PackageJson) :
  (forall r u, exists data, fetch r u = Ok data) ->
  readJson path = Normal packageJson ->
  exists st' report,
    analyzePackageJson readJson fetch path st = (st', Normal report)
    /\ let n := List.length (_extractDependencies packageJson) in
       let r := _requestCount st in
       pausesOf 100 st' = (pausesOf 100 st + n)%nat
       /\ pausesOf 60000 st'
          = (pausesOf 60000 st + ((r + n) / 50 - r / 50))%nat.
Proof.
  intros Hall Hread.
  destruct (run_pauses_spec readJson fetch path st packageJson Hread)
    as (st' & report & Hrun & _ & H1 & H2).
  exists st', report. split; [exact Hrun|]. cbn zeta in *.
  rewrite (answeredFrom_all fetch _ _ Hall) in H1, H2.
  rewrite length_seq in H1. rewrite limits_in_seq in H2. auto.
Qed.

Lemma run_pauses_all_answered_witness :
  exists st' report,
    Runs.run Runs.tieManifest Runs.tieRegistry = (st', Normal report)
    /\ pausesOf 100 st' = 2%nat /\ pausesOf 60000 st' = 0%nat.
Proof.
  destruct (run_pauses_all_answered (fun _ => Normal Runs.tieManifest)
              Runs.tieRegistry "./package.json" (newAnalyzer [])
              Runs.tieManifest)
    as (st' & report & Hrun & H1 & H2).
  - intros r u. unfold Runs.tieRegistry, Runs.answer.
    destruct (String.eqb u (Runs.url "first")); eexists; reflexivity.
  - reflexivity.
  - exists st', report. split; [exact Hrun|]. split; [exact H1|exact H2].
Defined.

(** ** Reusing the analyzer *)

Lemma read_alloc_other (h : store) (a : address) :
  read (fst (alloc h)) a = read h a.
Proof.
  unfold alloc, read. cbn [fst].
  destruct (Nat.lt_ge_cases a (List.length h)) as [H|H].
  - now rewrite app_nth1.
  - rewrite app_nth2 by exact H. rewrite (nth_overflow h) by exact H.
    destruct (a - List.length h)%nat as [|[|n]]; reflexivity.
Qed.

Section Reuse.

Variable readJson : string -> completion PackageJson.
Variable fetch : nat -> string -> Response.

Lemma analyzeDep_frame (st : Analyzer) (dep : Dep) (a : address) :
  a <> _packages st ->
  read (heap (analyzeDep fetch st dep)) a = read (heap st) a.
Proof.
  intros Ha. unfold analyzeDep, _analyzePackage.
  destruct (_fetchPackageInfo fetch _ _); cbn [push _sleep heap _packages];
    [destruct (_ =? 0)%nat|]; cbn [push _sleep heap _packages];
    apply read_write_other; congruence.
Qed.

Lemma loop_frame (deps : list Dep) (st : Analyzer) (a : address) :
  (_packages st < List.length (heap st))%nat ->
  a <> _packages st ->
  read (heap (fold_left (analyzeDep fetch) deps st)) a = read (heap st) a.
Proof.
  revert st. induction deps as [|dep deps IH]; intros st Hvalid Ha;
    [reflexivity|].
  cbn [fold_left].
  destruct (analyzeDep_spec fetch st dep Hvalid) as (Hp & Hl & _).
  rewrite IH; [now apply analyzeDep_frame| |]; rewrite Hp, ?Hl; auto.
Qed.

(** A run leaves the arrays that exist when it starts as they are. *)
Lemma analyzePackageJson_frame (path : string) (st : Analyzer) (a : address) :
  (a < List.length (heap st))%nat ->
  read (heap (fst (analyzePackageJson readJson fetch path st))) a
  = read (heap st) a.
Proof.
  intros Ha. unfold analyzePackageJson, _readPackageJson.
  destruct (readJson path) as [packageJson|e]; [|reflexivity].
  pose proof (read_alloc_other (heap st) a) as Halloc.
  destruct (read_alloc (heap st)) as [_ Hvalid].
  unfold alloc in *. cbn [fst snd] in *.
  rewrite loop_frame; cbn [heap _packages]; auto. lia.
Qed.

(** X12: an analyzer can be used again: the second run collects into a fresh
    array, so the report of the first run keeps its packages, whatever the
    second run does. *)
Theorem earlier_report_kept (path path' : string) (st : Analyzer)
    (packageJson : PackageJson) :
  readJson path = Normal packageJson ->
  exists st1 report,
    analyzePackageJson readJson fetch path st = (st1, Normal report)
    /\ let second := analyzePackageJson readJson fetch path' st1 in
       read (heap (fst second)) (packages report)
       = read (heap st1) (packages report)
       /\ forall report', snd second = Normal report' ->
                          packages report' <> packages report.
Proof.
  intros Hread.
  destruct (analyzePackageJson_spec readJson fetch path st packageJson Hread)
    as (st1 & Hrun & Hvalid & _).
  exists st1, (_generateReport st1). split; [exact Hrun|].
  cbn zeta. cbn [packages _generateReport]. split.
  - now apply analyzePackageJson_frame.
  - intros report'. unfold analyzePackageJson, _readPackageJson.
    destruct (readJson path') as [packageJson'|e]; [|discriminate].
    destruct (read_alloc (heap st1)) as [_ Hfresh].
    unfold alloc in *. cbn [fst snd] in *.
    set (st0 := {| heap := (heap st1 ++ [[]])%list;
                   _packages := List.length (heap st1);
                   _requestCount := _requestCount st1;
                   slept := slept st1 |}).
    destruct (loop_spec fetch (_extractDependencies packageJson') st0 Hfresh)
      as (Hp & _).
    intros H. injection H as <-. cbn [packages _generateReport].
    rewrite Hp. cbn [_packages st0]. lia.
Qed.

End Reuse.

Lemma earlier_report_kept_witness :
  exists st1 report,
    Runs.run Runs.unsortedManifest Runs.unsortedRegistry
    = (st1, Normal report)
    /\ map name
         (read (heap (fst (analyzePackageJson
                             (fun _ => Normal Runs.unsortedManifest)
                             Runs.unsortedRegistry "./other.json" st1)))
            (packages report))
       = ["zod"; "axios"].
Proof.
  destruct (earlier_report_kept (fun _ => Normal Runs.unsortedManifest)
              Runs.unsortedRegistry "./package.json" "./other.json"
              (newAnalyzer []) Runs.unsortedManifest eq_refl)
    as (st1 & report & Hrun & Hkept & _).
  exists st1, report. split; [exact Hrun|].
  cbn zeta in Hkept. rewrite Hkept.
  injection Hrun as <- <-. reflexivity.
Defined.

(** ** The keys and the cells of the histogram *)

Lemma existsb_keys (k : string) (o : JS.object) :
  existsb (String.eqb k) (map fst o)
  = match JS.assoc k o with Some _ => true | None => false end.
Proof.
  induction o as [|[j v] o IH]; [reflexivity|].
  cbn [map fst existsb JS.assoc]. rewrite (String.eqb_sym k j).
  destruct (String.eqb j k); [reflexivity|exact IH].
Qed.

Lemma keys_increment_eq (o : JS.object) (k : string) :
  map fst (JS.increment o k)
  = if notProto k then seen (map fst o) k else map fst o.
Proof.
  unfold JS.increment, JS.set, notProto, seen.
  destruct (String.eqb k "__proto__"); [reflexivity|]. cbn [negb].
  rewrite existsb_keys. destruct (JS.assoc k o).
  - apply keys_update.
  - now rewrite map_app.
Qed.

Lemma keys_fold_increment_eq (l : list string) (o : JS.object) :
  map fst (fold_left JS.increment l o)
  = fold_left seen (filter notProto l) (map fst o).
Proof.
  revert o. induction l as [|k l IH]; intros o; [reflexivity|].
  cbn [fold_left filter]. rewrite IH, keys_increment_eq.
  now destruct (notProto k).
Qed.

Lemma keys_filter (P : string -> bool) (o : JS.object) :
  map fst (filter (fun e => P (fst e)) o) = filter P (map fst o).
Proof.
  induction o as [|e o IH]; [reflexivity|]. cbn [filter map].
  destruct (P (fst e)); cbn [map]; now rewrite IH.
Qed.

Lemma filter_all {A : Type} (P : A -> bool) (l : list A) :
  Forall (fun x => P x = true) l -> filter P l = l.
Proof.
  induction 1 as [|x l Hx _ IH]; [reflexivity|].
  cbn [filter]. now rewrite Hx, IH.
Qed.

Lemma filter_none {A : Type} (P : A -> bool) (l : list A) :
  Forall (fun x => P x = false) l -> filter P l = [].
Proof.
  induction 1 as [|x l Hx _ IH]; [reflexivity|].
  cbn [filter]. now rewrite Hx, IH.
Qed.

Lemma filter_split_permutation {A : Type} (P : A -> bool) (l : list A) :
  Permutation l (filter P l ++ filter (fun x => negb (P x)) l).
Proof.
  induction l as [|x l IH]; [constructor|]. cbn [filter].
  destruct (P x); cbn [negb app].
  - now constructor.
  - now apply Permutation_cons_app.
Qed.

Lemma entries_permutation (o : JS.object) : Permutation o (JS.entries o).
Proof.
  unfold JS.entries.
  rewrite (filter_split_permutation (fun e => JS.isArrayIndex (fst e)) o)
    at 1.
  apply Permutation_app_tail, sort_permutation.
Qed.

(** The two parts of [Object.entries]. *)
Lemma entries_parts (o : JS.object) :
  filter (fun e => JS.isArrayIndex (fst e)) (JS.entries o)
  = JS.sort JS.compareIndex (filter (fun e => JS.isArrayIndex (fst e)) o)
  /\ filter (fun e => negb (JS.isArrayIndex (fst e))) (JS.entries o)
     = filter (fun e => negb (JS.isArrayIndex (fst e))) o.
Proof.
  assert (Forall (fun e => JS.isArrayIndex (fst e) = true)
            (JS.sort JS.compareIndex
               (filter (fun e => JS.isArrayIndex (fst e)) o))) as Hindexed.
  { eapply Permutation_Forall; [apply sort_permutation|].
    apply Forall_forall. intros e He. apply filter_In in He. tauto. }
  assert (Forall (fun e => JS.isArrayIndex (fst e) = false)
            (filter (fun e => negb (JS.isArrayIndex (fst e))) o)) as Hothers.
  { apply Forall_forall. intros e He. apply filter_In in He.
    now apply negb_true_iff. }
  unfold JS.entries. rewrite !filter_app. split.
  - rewrite (filter_all _ _ Hindexed), (filter_none _ _ Hothers).
    apply app_nil_r.
  - rewrite filter_none.
    + apply filter_all. eapply Forall_impl; [|exact Hothers].
      intros e He. now rewrite He.
    + eapply Forall_impl; [|exact Hindexed]. intros e He. now rewrite He.
Qed.

(** X13: [Object.entries] lists each license of the packages once, and no
    other key; the one license that never gets a key is [__proto__].  The
    licenses that are array indices come first, in ascending order, and the
    other licenses follow in the order in which they are first met. *)
Theorem licenseDistribution_keys (st : Analyzer) :
  let pkgs := read (heap st) (_packages st) in
  let listed := JS.entries (licenseDistribution (_generateReport st)) in
  let met := firstSeen (filter notProto (map licenseKey pkgs)) in
  let indexed := filter (fun e => JS.isArrayIndex (fst e)) listed in
  let others := filter (fun e => negb (JS.isArrayIndex (fst e))) listed in
  listed = (indexed ++ others)%list
  /\ Sorted (mayPrecede JS.compareIndex) indexed
  /\ map fst others = filter (fun k => negb (JS.isArrayIndex k)) met
  /\ Permutation met (map fst listed)
  /\ NoDup (map fst listed)
  /\ forall k, In k (map fst listed)
               <-> k <> "__proto__" /\ exists p, In p pkgs /\ licenseKey p = k.
Proof.
  intros pkgs listed met indexed others.
  set (o := licenseDistribution (_generateReport st)) in *.
  assert (map fst o = met) as E.
  { unfold o. cbn [licenseDistribution _generateReport]. fold pkgs.
    now rewrite fold_countLicense, keys_fold_increment_eq. }
  destruct (entries_parts o) as [Hindexed Hothers].
  fold listed in Hindexed, Hothers. fold indexed in Hindexed.
  fold others in Hothers.
  assert (Permutation met (map fst listed)) as Hperm.
  { rewrite <- E. apply Permutation_map, entries_permutation. }
  destruct (firstSeen_spec (filter notProto (map licenseKey pkgs)))
    as [Hn Hi].
  fold met in Hn, Hi.
  split; [|split; [|split; [|split; [exact Hperm|split]]]].
  - rewrite Hindexed, Hothers. reflexivity.
  - rewrite Hindexed.
    apply (sort_sorted _ (fun e => JS.isArrayIndex (fst e) = true)).
    + intros x y Hx Hy. unfold JS.compareIndex, JS.isArrayIndex in *.
      destruct (JS.arrayIndex (fst x)), (JS.arrayIndex (fst y));
        try discriminate.
      apply Z.compare_antisym.
    + apply Forall_forall. intros e He. apply filter_In in He. tauto.
  - rewrite Hothers,
      (keys_filter (fun k => negb (JS.isArrayIndex k)) o).
    now rewrite E.
  - exact (Permutation_NoDup Hperm Hn).
  - intros k.
    rewrite <- (Permutation_in' eq_refl Hperm).
    rewrite Hi, filter_In, in_map_iff. unfold notProto.
    destruct (String.eqb k "__proto__") eqn:Ek; cbn [negb].
    + apply String.eqb_eq in Ek. split; [intros [_ H]; discriminate H|].
      intros [H _]. contradiction.
    + apply String.eqb_neq in Ek. split.
      * intros [(p & E' & Hp) _]. split; [exact Ek|]. now exists p.
      * intros [_ (p & Hp & E')]. split; [|reflexivity]. now exists p.
Qed.

(** Licenses met as MIT, 42, MIT, 7 are listed as 7, 42, MIT. *)
Example licenseDistribution_keys_example :
  let entry license :=
    analysisOf {| dep_name := "x"; dep_version := "1.0.0";
                  dep_type := dependency |}
      (Recorded.info "1.0.0" license None) in
  let st := fold_left (fun st p => push p st)
              [entry "MIT"; entry "42"; entry "MIT"; entry "7"]
              (newAnalyzer []) in
  JS.entries (licenseDistribution (_generateReport st))
  = [("7", JS.VNum 1); ("42", JS.VNum 1); ("MIT", JS.VNum 2)].
Proof. vm_compute. reflexivity. Qed.

Lemma get_tally (l : list string) (k : string) :
  In k l -> JS.get (tally l) k = JS.Own (JS.VNum (occurrences k l)).
Proof.
  intros Hk. unfold JS.get, tally.
  rewrite (assoc_map (fun j => JS.VNum (occurrences j l))).
  destruct (firstSeen_spec l) as [_ Hi].
  apply Hi, existsb_eqb in Hk. now rewrite Hk.
Qed.

(** X14: when no license is named like a property of [Object.prototype],
    the histogram holds under each license the number of packages that
    carry it, and its cells sum to [totalPackages]. *)
Theorem licenseDistribution_counts (st : Analyzer) :
  let pkgs := read (heap st) (_packages st) in
  let report := _generateReport st in
  Forall (fun p => inherited (licenseKey p) = false) pkgs ->
  (forall p, In p pkgs ->
     JS.get (licenseDistribution report) (licenseKey p)
     = JS.Own (JS.VNum (occurrences (licenseKey p) (map licenseKey pkgs))))
  /\ total (licenseDistribution report) = totalPackages report.
Proof.
  intros pkgs report Hsafe.
  assert (licenseDistribution report = tally (map licenseKey pkgs)) as E.
  { unfold report. cbn [licenseDistribution _generateReport]. fold pkgs.
    rewrite fold_countLicense. apply fold_increment.
    now apply Forall_map. }
  rewrite E. split.
  - intros p Hp. apply get_tally. now apply in_map.
  - rewrite total_tally. apply length_map.
Qed.

Lemma licenseDistribution_counts_witness :
  JS.get (licenseDistribution (_generateReport Runs.unsortedState)) "MIT"
  = JS.Own (JS.VNum 2)
  /\ total (licenseDistribution (_generateReport Runs.unsortedState))
     = 2%nat.
Proof.
  assert (Forall (fun p => inherited (licenseKey p) = false)
            (read (heap Runs.unsortedState) (_packages Runs.unsortedState)))
    as Hsafe by (repeat constructor).
  destruct (licenseDistribution_counts Runs.unsortedState Hsafe)
    as [Hget Htotal].
  split; [|exact Htotal].
  exact (Hget (hd (failedEntry {| dep_name := ""; dep_version := "";
                                  dep_type := dependency |})
                 (read (heap Runs.unsortedState)
                    (_packages Runs.unsortedState)))
           (or_introl eq_refl)).
Defined.

(** ** Rendering again *)

Lemma write_write (h : store) (a : address) (v w : list PackageAnalysis) :
  write (write h a v) a w = write h a w.
Proof.
  revert a. induction h as [|x h IH]; intros a; [reflexivity|].
  destruct a; simpl; [reflexivity|]. now rewrite IH.
Qed.

Lemma write_outside (h : store) (a : address) (v : list PackageAnalysis) :
  (List.length h <= a)%nat -> write h a v = h.
Proof.
  revert a. induction h as [|x h IH]; intros a H; [reflexivity|].
  destruct a; simpl in *; [lia|]. rewrite IH; [reflexivity|lia].
Qed.

Section RenderingAgain.

Variable localeCompare : string -> string -> comparison.
Variable numberToString : Q -> string.

Hypothesis localeCompare_antisym :
  forall a b, localeCompare b a = CompOpp (localeCompare a b).

Lemma sort_byName_idempotent (l : list PackageAnalysis) :
  JS.sort (byName localeCompare) (JS.sort (byName localeCompare) l)
  = JS.sort (byName localeCompare) l.
Proof.
  assert (forall x y : PackageAnalysis, True -> True ->
            byName localeCompare y x = CompOpp (byName localeCompare x y))
    as Hanti by (intros x y _ _; apply localeCompare_antisym).
  apply (sort_fixed _ _ Hanti).
  - apply Forall_forall; auto.
  - apply (sort_sorted _ _ Hanti). apply Forall_forall; auto.
Qed.

(** X15: rendering a report a second time leaves every array as the first
    rendering left it; the second file lists the same packages in its table
    of all packages, and its outdated packages now in name order. *)
Theorem generateReportFile_again (report : AnalysisReport)
    (now now' outputPath outputPath' : string) (h : store) :
  let first := generateReportFile localeCompare now numberToString report
                 outputPath h in
  let second := generateReportFile localeCompare now' numberToString report
                  outputPath' (fst first) in
  let sorted := JS.sort (byName localeCompare) (read h (packages report)) in
  fst second = fst first
  /\ snd (snd second)
     = "# Package Dependency Analysis Report" ++ nl ++ nl
       ++ "Generated on: " ++ now' ++ nl ++ nl
       ++ summaryLines numberToString report
       ++ licenseLines numberToString report
       ++ maintainerLines report
       ++ outdatedTable (filter isOutdated sorted)
       ++ packagesTable sorted.
Proof.
  intros first second sorted.
  assert (JS.sort (byName localeCompare) (read (fst first) (packages report))
          = sorted
          /\ read (fst first) (packages report) = sorted
             \/ (List.length h <= packages report)%nat) as H.
  { destruct (Nat.lt_ge_cases (packages report) (List.length h)) as [Hv|Hv];
      [left|now right].
    unfold first, generateReportFile. cbn [fst].
    rewrite read_write by exact Hv. split; [|reflexivity].
    apply sort_byName_idempotent. }
  unfold second, generateReportFile. cbn [fst snd].
  destruct H as [[Hs Hr]|Hout].
  - rewrite Hs, Hr. split.
    + unfold first, generateReportFile. cbn [fst]. apply write_write.
    + now rewrite !append_assoc.
  - assert (fst first = h) as ->
      by (unfold first, generateReportFile; cbn [fst];
          now apply write_outside).
    split; [now rewrite write_outside|].
    fold sorted. unfold sorted, read. rewrite nth_overflow by exact Hout.
    now rewrite !append_assoc.
Qed.

End RenderingAgain.

Lemma generateReportFile_again_witness :
  let first := generateReportFile Recorded.ordinal "" (fun _ => "")
                 (_generateReport Runs.unsortedState) "report.md"
                 (heap Runs.unsortedState) in
  fst (generateReportFile Recorded.ordinal "" (fun _ => "")
         (_generateReport Runs.unsortedState) "again.md" (fst first))
  = fst first.
Proof.
  exact (proj1 (generateReportFile_again Recorded.ordinal (fun _ => "")
                  (fun a b => String.compare_antisym b a)
                  (_generateReport Runs.unsortedState) "" "" "report.md"
                  "again.md" (heap Runs.unsortedState))).
Defined.

(** ** The author column *)

Lemma length_append (a b : string) :
  String.length (a ++ b) = (String.length a + String.length b)%nat.
Proof. induction a as [|c a IH]; simpl; [reflexivity|]. now rewrite IH. Qed.

Lemma length_substring (n : nat) (s : string) :
  String.length (substring 0 n s) = Nat.min n (String.length s).
Proof.
  revert s. induction n as [|n IH]; intros s.
  - now destruct s.
  - destruct s as [|c s]; simpl; [reflexivity|]. now rewrite IH.
Qed.

Lemma substring_prefix (n : nat) (s : string) :
  exists rest, s = substring 0 n s ++ rest.
Proof.
  revert s. induction n as [|n IH]; intros s.
  - exists s. now destruct s.
  - destruct s as [|c s]; [now exists ""|].
    destruct (IH s) as (rest & E). exists rest. simpl. now rewrite <- E.
Qed.

(** X16: the author column of the table of all packages shows an author of
    at most 20 characters in full, and the first 20 characters followed by
    three dots of a longer one; the cell never exceeds 23 characters. *)
Theorem packageRow_author_cell (pkg : PackageAnalysis) :
  packageRow pkg
  = "| " ++ name pkg ++ " | " ++ installedVersion pkg ++ " | "
    ++ latestVersion pkg ++ " | " ++ license pkg ++ " | " ++ authorCell pkg
    ++ " | " ++ (if isOutdated pkg then warningIcon else checkIcon)
    ++ " |" ++ nl
  /\ (String.length (authorCell pkg) <= 23)%nat
  /\ ((String.length (author pkg) <= 20)%nat -> authorCell pkg = author pkg)
  /\ ((20 < String.length (author pkg))%nat ->
      String.length (authorCell pkg) = 23%nat
      /\ exists shown rest,
           String.length shown = 20%nat
           /\ author pkg = shown ++ rest
           /\ authorCell pkg = shown ++ "...").
Proof.
  split; [reflexivity|]. unfold authorCell.
  destruct (20 <? String.length (author pkg))%nat eqn:E.
  - apply Nat.ltb_lt in E.
    assert (String.length (substring 0 20 (author pkg)) = 20%nat) as Hl
      by (rewrite length_substring; lia).
    split; [rewrite length_append, Hl; simpl; lia|].
    split; [lia|]. intros _.
    split; [rewrite length_append, Hl; reflexivity|].
    destruct (substring_prefix 20 (author pkg)) as (rest & Hrest).
    exists (substring 0 20 (author pkg)), rest. auto.
  - apply Nat.ltb_ge in E. split; [lia|]. split; [reflexivity|lia].
Qed.

Lemma packageRow_author_cell_witness :
  authorCell
    (analysisOf {| dep_name := "x"; dep_version := "1.0.0";
                   dep_type := dependency |}
       (Recorded.info "1.0.0" "MIT"
          (Some (AuthorString "The Example Project Contributors"))))
  = "The Example Project ...".
Proof.
  destruct (packageRow_author_cell
              (analysisOf {| dep_name := "x"; dep_version := "1.0.0";
                             dep_type := dependency |}
                 (Recorded.info "1.0.0" "MIT"
                    (Some (AuthorString
                             "The Example Project Contributors")))))
    as (_ & _ & _ & H).
  destruct H as (_ & shown & rest & _ & _ & _); [simpl; lia|].
  reflexivity.
Defined.

(** ** Percentages *)

Lemma ilog2_one (q : Q) : q == 1 -> JS.ilog2 q = 0%Z.
Proof.
  destruct q as [n d]. unfold Qeq. cbn [Qnum Qden]. intros H.
  assert (n = Zpos d) as -> by lia.
  unfold JS.ilog2. cbn [Qnum Qden]. rewrite Z.sub_diag.
  assert (Qle_bool (2 ^ 0) (Zpos d # d) = true) as ->; [|reflexivity].
  apply Qle_bool_iff. unfold Qle. simpl. lia.
Qed.

Lemma round64_one (q : Q) : q == 1 -> JS.round64 q = JS.Fin 1.
Proof.
  intros H. unfold JS.round64.
  rewrite (Qcompare_comp _ _ H _ _ (Qeq_refl 0)).
  change (1 ?= 0)%Q with Gt. cbv iota.
  unfold JS.round64_pos. rewrite (ilog2_one q H).
  change (Z.max (0 - 52) (-1074)) with (-52)%Z. cbv zeta.
  assert (q / 2 ^ (-52) == inject_Z (2 ^ 52)) as Em
    by (rewrite H; reflexivity).
  rewrite (round_half_even_Z _ _ Em). reflexivity.
Qed.

(** [x / x] is 1 for a finite [x] other than zero. *)
Lemma div_self (a : Q) : ~ a == 0 -> JS.div (JS.Fin a) (JS.Fin a) = JS.Fin 1.
Proof.
  intros Ha. unfold JS.div.
  destruct (Qeq_bool a 0) eqn:E; [apply Qeq_bool_iff in E; contradiction|].
  apply round64_one. now field.
Qed.

(** [0 / x] is 0 for a finite [x] other than zero. *)
Lemma div_zero (b : Q) : ~ b == 0 -> JS.div JS.zero (JS.Fin b) = JS.zero.
Proof.
  intros Hb. unfold JS.div, JS.zero.
  destruct (Qeq_bool b 0) eqn:E; [apply Qeq_bool_iff in E; contradiction|].
  unfold JS.round64.
  assert (0 / b == 0) as H by now field.
  now rewrite (Qcompare_comp _ _ H _ _ (Qeq_refl 0)).
Qed.

Lemma of_nat_positive (n : nat) :
  (0 < n)%nat -> (Z.of_nat n < 2 ^ 53)%Z ->
  exists a, JS.of_nat n = JS.Fin a /\ ~ a == 0.
Proof.
  intros Hpos Hlt. exists (inject_Z (Z.of_nat n)).
  split; [now apply of_nat_exact|].
  unfold Qeq. cbn [Qnum Qden inject_Z]. lia.
Qed.

Section Percentages.

Variable numberToString : Q -> string.

Lemma percentage_whole (n : nat) :
  (0 < n)%nat -> (Z.of_nat n < 2 ^ 53)%Z ->
  percentage numberToString (JS.of_nat n) (JS.of_nat n) = "100.0".
Proof.
  intros Hpos Hlt. destruct (of_nat_positive n Hpos Hlt) as (a & -> & Ha).
  unfold percentage. now rewrite div_self.
Qed.

Lemma percentage_none (n : nat) :
  (0 < n)%nat -> (Z.of_nat n < 2 ^ 53)%Z ->
  percentage numberToString (JS.of_nat 0) (JS.of_nat n) = "0.0".
Proof.
  intros Hpos Hlt. destruct (of_nat_positive n Hpos Hlt) as (a & -> & Ha).
  unfold percentage. change (JS.of_nat 0) with JS.zero.
  now rewrite div_zero.
Qed.

(** X17: in a report of at least one package the summary reads 0.0% when no
    package is outdated and 100.0% when all are, and a license that every
    package carries is listed with 100.0%. *)
Theorem percentage_extremes (report : AnalysisReport) :
  (0 < totalPackages report)%nat ->
  (Z.of_nat (totalPackages report) < 2 ^ 53)%Z ->
  (outdatedPackages report = 0%nat ->
   summaryLines numberToString report
   = "## Summary" ++ nl ++ nl
     ++ "- **Total Packages**: "
     ++ JS.decimal (N.of_nat (totalPackages report)) ++ nl
     ++ "- **Outdated Packages**: 0 (0.0%)" ++ nl ++ nl)
  /\ (outdatedPackages report = totalPackages report ->
      summaryLines numberToString report
      = "## Summary" ++ nl ++ nl
        ++ "- **Total Packages**: "
        ++ JS.decimal (N.of_nat (totalPackages report)) ++ nl
        ++ "- **Outdated Packages**: "
        ++ JS.decimal (N.of_nat (totalPackages report)) ++ " (100.0%)"
        ++ nl ++ nl)
  /\ (forall license,
        licenseLine numberToString report
          (license, JS.VNum (totalPackages report))
        = "- **" ++ license ++ "**: "
          ++ JS.decimal (N.of_nat (totalPackages report))
          ++ " packages (100.0%)" ++ nl).
Proof.
  intros Hpos Hlt. split; [|split].
  - intros Hout. unfold summaryLines.
    rewrite Hout, percentage_none by assumption. reflexivity.
  - intros Hout. unfold summaryLines.
    rewrite Hout, percentage_whole by assumption. reflexivity.
  - intros license. unfold licenseLine. cbn [JS.toNumber JS.toString].
    rewrite percentage_whole by assumption. reflexivity.
Qed.

End Percentages.

Lemma percentage_extremes_witness :
  licenseLine (fun _ => "") (_generateReport Runs.unsortedState)
    ("MIT", JS.VNum 2)
  = "- **MIT**: 2 packages (100.0%)" ++ nl.
Proof.
  destruct (percentage_extremes (fun _ => "")
              (_generateReport Runs.unsortedState))
    as (_ & _ & H); [simpl; lia|simpl; lia|].
  exact (H "MIT").
Defined.

(** ** The command line *)

Section MainOutcome.

Variable readJson : string -> completion PackageJson.
Variable fetch : nat -> string -> Response.
Variable localeCompare : string -> string -> comparison.
Variable now : string.
Variable numberToString : Q -> string.
Variable writeFileSync : string -> string -> completion unit.


End MainOutcome.

(** ** The order of the license lines *)

(** X19: when no license is named like a property of [Object.prototype],
    the license lines of the file come one per license, each with the
    number of packages that carry it, in descending order of that number;
    licenses with the same number keep the order of [Object.entries], which
    is the order in which they are first met for names that are not array
    indices. *)
Theorem licenseLines_order (numberToString : Q -> string) (st : Analyzer) :
  let pkgs := read (heap st) (_packages st) in
  let report := _generateReport st in
  let table := tally (map licenseKey pkgs) in
  let listed := JS.sort JS.byCountDescending (JS.entries table) in
  Forall (fun p => inherited (licenseKey p) = false) pkgs ->
  (Z.of_nat (List.length pkgs) < 2 ^ 53)%Z ->
  licenseLines numberToString report
  = "## License Distribution" ++ nl ++ nl
    ++ String.concat "" (map (licenseLine numberToString report) listed)
  /\ (forall e, In e listed <-> In e table)
  /\ List.length listed = List.length (firstSeen (map licenseKey pkgs))
  /\ StronglySorted (fun x y => (countOf y <= countOf x)%nat) listed
  /\ forall n, filter (hasCount n) listed
               = filter (hasCount n) (JS.entries table).
Proof.
  intros pkgs report table listed Hsafe Hlen.
  assert (licenseDistribution report = table) as E.
  { unfold report. cbn [licenseDistribution _generateReport]. fold pkgs.
    rewrite fold_countLicense. apply fold_increment.
    now apply Forall_map. }
  assert (Forall smallCount (JS.entries table)) as Hsmall.
  { apply Forall_forall. intros e He. rewrite In_entries in He.
    revert e He. apply Forall_forall. apply tally_small.
    now rewrite length_map. }
  split; [unfold licenseLines; now rewrite E|]. split; [|split; [|split]].
  - intros e. unfold listed.
    rewrite <- (Permutation_in' eq_refl (sort_permutation _ _)).
    apply In_entries.
  - unfold listed. rewrite length_sort. unfold JS.entries.
    rewrite length_app, length_sort.
    unfold table, tally.
    induction (firstSeen (map licenseKey pkgs)) as [|k ks IH];
      [reflexivity|].
    cbn [map filter fst List.length].
    destruct (JS.isArrayIndex k); cbn [negb List.length]; lia.
  - apply Sorted_descending.
    + eapply Permutation_Forall; [apply sort_permutation|exact Hsmall].
    + apply (sort_sorted _ smallCount); [|exact Hsmall].
      intros x y Hx Hy. now apply byCountDescending_antisym.
  - intros n. apply filter_sort. intros x y. apply same_count_tie.
Qed.

Lemma licenseLines_order_witness :
  licenseLines (fun _ => "") (_generateReport Runs.unsortedState)
  = "## License Distribution" ++ nl ++ nl
    ++ "- **MIT**: 2 packages (100.0%)" ++ nl.
Proof.
  destruct (licenseLines_order (fun _ => "") Runs.unsortedState)
    as (H & _); [repeat constructor|simpl; lia|].
  rewrite H. reflexivity.
Defined.
